(** * Multiple-Control, Multiple-Target gate synthesis (qiskit/aqua/utils/mcmt.py)

    A shallow embedding of [_ccx_v_chain_compute], [_ccx_v_chain_uncompute]
    and [mcmt].  The circuit under construction is an append-only list of
    gates; Python exceptions are an explicit outcome that keeps the circuit
    as it was when the exception was raised. *)

From Stdlib Require Import String List ZArith Bool Lia.
Import ListNotations.

Set Implicit Arguments.

(** ** Python exceptions and the circuit-building monad *)

Inductive ValueErrorKind : Type :=
| BadControls                       (* 'MCT needs a list of qubits or a quantum register for controls.' *)
| BadTargets                        (* '... for targets.' *)
| BadAncilla                        (* 'MCT needs None or a list of qubits or a quantum register for ancilla.' *)
| UnrecognizedMode (mode : string). (* 'Unrecognized mode ... only basic mode is supported.' *)

Inductive PyError : Type :=
| ValueError (k : ValueErrorKind)
| AssertionError (n : Z)            (* 'Insufficient number of ancillary qubits n.' *)
| IndexError                        (* list index out of range *)
| InvalidQubit                      (* raised by the host circuit's _check_qubit *)
| DuplicateQubit.                   (* raised by the host circuit's _check_dups *)

Inductive Outcome (A : Type) : Type :=
| Returned (a : A)
| Raised (e : PyError).

Arguments Returned {A} a.
Arguments Raised {A} e.

(** A computation reads and extends a state [S] and either returns or raises;
    the state reached so far survives a raise. *)
Definition M (S A : Type) : Type := S -> S * Outcome A.

Definition ret {S A} (a : A) : M S A := fun s => (s, Returned a).

Definition raise {S A} (e : PyError) : M S A := fun s => (s, Raised e).

Definition bind {S A B} (m : M S A) (f : A -> M S B) : M S B :=
  fun s =>
    match m s with
    | (s', Returned a) => f a s'
    | (s', Raised e) => (s', Raised e)
    end.

Declare Scope py_scope.
Delimit Scope py_scope with py.
Notation "x <- m ;; k" := (bind m (fun x => k))
  (at level 61, m at next level, right associativity) : py_scope.
Notation "m ;; k" := (bind m (fun _ => k))
  (at level 61, right associativity) : py_scope.
Open Scope py_scope.

(** [for x in l: body(x)] *)
Fixpoint for_each {S A} (l : list A) (body : A -> M S unit) : M S unit :=
  match l with
  | [] => ret tt
  | x :: l' => body x ;; for_each l' body
  end.

(** [for x in l: v = body(x, v)], for a loop that updates a local variable. *)
Fixpoint for_state {S A V} (l : list A) (v : V) (body : A -> V -> M S V) : M S V :=
  match l with
  | [] => ret v
  | x :: l' => v' <- body x v ;; for_state l' v' body
  end.

(** [assert cond, msg] *)
Definition py_assert {S} (cond : bool) (e : PyError) : M S unit :=
  if cond then ret tt else raise e.

(** ** Concrete inputs

    Qubits numbered by [nat], a host circuit that knows every number, and
    the boolean assignment that makes exactly the first [k] qubits true. *)

Definition all_valid (q : nat) : bool := true.

Definition first_true (k : nat) : nat -> bool := fun q => Nat.ltb q k.

(** A host circuit with five qubits, numbered 0 to 4. *)
Definition five_qubits (q : nat) : bool := Nat.ltb q 5.

(** ** Python lists *)

(** [len(l)] *)
Definition len {A} (l : list A) : Z := Z.of_nat (length l).

(** [l[i]] on a Python list: a negative index counts from the end. *)
Definition py_get {A} (l : list A) (i : Z) : option A :=
  if (0 <=? i)%Z then nth_error l (Z.to_nat i)
  else if (- len l <=? i)%Z then nth_error l (Z.to_nat (len l + i))
  else None.

Definition py_index {S A} (l : list A) (i : Z) : M S A :=
  match py_get l i with
  | Some x => ret x
  | None => raise IndexError
  end.

(** [range(lo, hi)] *)
Definition py_range (lo hi : nat) : list Z := map Z.of_nat (seq lo (hi - lo)).

Section Mcmt.

(** Qubits are opaque handles compared by identity. *)
Variable Qubit : Type.
Variable Qubit_eq_dec : forall x y : Qubit, {x = y} + {x <> y}.

(** The host circuit's registry: which handles name a qubit of the circuit. *)
Variable valid_qubit : Qubit -> bool.

(** Operations appended to the circuit. *)
Inductive Gate : Type :=
| CCX (c1 c2 t : Qubit)   (* qc.ccx(c1, c2, t) *)
| SCG (c t : Qubit).      (* single_control_gate_fun(qc, c, t) *)

Definition Circuit : Type := list Gate.

Definition Prog (A : Type) : Type := M Circuit A.

Definition emit (g : Gate) : Prog unit := fun qc => (qc ++ [g], Returned tt).

(** Modelled from the spec: the 2-control fold primitive [QuantumCircuit.ccx]
    of the host library, which appends one operation. *)
Definition ccx (c1 c2 t : Qubit) : Prog unit := emit (CCX c1 c2 t).

(** Modelled from the spec: a caller-supplied primitive emitter such as
    [QuantumCircuit.cz], which appends one conditioned operation. *)
Definition primitive_gate (c t : Qubit) : Prog unit := emit (SCG c t).

(** Modelled from the spec: [QuantumCircuit._check_qubit] of the host
    library, the qubit-validity check. *)
Definition _check_qubit (q : Qubit) : Prog unit :=
  if valid_qubit q then ret tt else raise InvalidQubit.

(** Modelled from the spec: [QuantumCircuit._check_dups] of the host
    library, which compares [len(set(qubits))] with [len(qubits)]. *)
Definition _check_dups (qubits : list Qubit) : Prog unit :=
  if Nat.eqb (length (nodup Qubit_eq_dec qubits)) (length qubits)
  then ret tt else raise DuplicateQubit.

(** *** _ccx_v_chain_compute *)
Definition _ccx_v_chain_compute (control_qubits ancillary_qubits : list Qubit)
  : Prog unit :=
  let anci_idx := 0%Z in
  c0 <- py_index control_qubits 0 ;;
  c1 <- py_index control_qubits 1 ;;
  a0 <- py_index ancillary_qubits anci_idx ;;
  ccx c0 c1 a0 ;;
  _ <- for_state (py_range 2 (length control_qubits)) anci_idx
    (fun idx anci_idx =>
       py_assert (anci_idx + 1 <? len ancillary_qubits)%Z
                 (AssertionError (len ancillary_qubits)) ;;
       c <- py_index control_qubits idx ;;
       a <- py_index ancillary_qubits anci_idx ;;
       a' <- py_index ancillary_qubits (anci_idx + 1) ;;
       ccx c a a' ;;
       ret (anci_idx + 1)%Z) ;;
  ret tt.

(** *** _ccx_v_chain_uncompute *)
Definition _ccx_v_chain_uncompute (control_qubits ancillary_qubits : list Qubit)
  : Prog unit :=
  let anci_idx := (len ancillary_qubits - 1)%Z in
  anci_idx <- for_state (rev (py_range 2 (length control_qubits))) anci_idx
    (fun idx anci_idx =>
       c <- py_index control_qubits idx ;;
       a <- py_index ancillary_qubits (anci_idx - 1) ;;
       a' <- py_index ancillary_qubits anci_idx ;;
       ccx c a a' ;;
       ret (anci_idx - 1)%Z) ;;
  c0 <- py_index control_qubits 0 ;;
  c1 <- py_index control_qubits 1 ;;
  a0 <- py_index ancillary_qubits anci_idx ;;
  ccx c0 c1 a0.

(** *** mcmt *)

(** What a caller may pass for a qubit collection. *)
Inductive QArg : Type :=
| PyNone
| PyRegister (qs : list Qubit)   (* a QuantumRegister, iterated into its qubits *)
| PyList (qs : list Qubit)       (* a Python list *)
| PyOther.                       (* any other object *)

Definition mcmt (q_controls q_ancillae : QArg)
           (single_control_gate_fun : Qubit -> Qubit -> Prog unit)
           (q_targets : QArg) (mode : string) : Prog unit :=
  (* check controls *)
  control_qubits <-
    match q_controls with
    | PyRegister qs => ret qs
    | PyList qs => ret qs
    | _ => raise (ValueError BadControls)
    end ;;
  (* check target *)
  target_qubits <-
    match q_targets with
    | PyRegister qs => ret qs
    | PyList qs => ret qs
    | _ => raise (ValueError BadTargets)
    end ;;
  (* check ancilla *)
  ancillary_qubits <-
    match q_ancillae with
    | PyNone => ret []
    | PyRegister qs => ret qs
    | PyList qs => ret qs
    | PyOther => raise (ValueError BadAncilla)
    end ;;
  let all_qubits := control_qubits ++ target_qubits ++ ancillary_qubits in
  for_each all_qubits _check_qubit ;;
  _check_dups all_qubits ;;
  if (len control_qubits =? 1)%Z then
    for_each target_qubits
      (fun qubit =>
         c <- py_index control_qubits 0 ;;
         single_control_gate_fun c qubit)
  else if String.eqb mode "basic" then
    (* last ancillary qubit is the control of the gate *)
    let ancn := len ancillary_qubits in
    _ccx_v_chain_compute control_qubits ancillary_qubits ;;
    for_each target_qubits
      (fun qubit =>
         a <- py_index ancillary_qubits (ancn - 1) ;;
         single_control_gate_fun a qubit) ;;
    _ccx_v_chain_uncompute control_qubits ancillary_qubits
  else
    raise (ValueError (UnrecognizedMode mode)).

(** ** The sequences the two chain halves are expected to append *)

(** The fold of [controls[i+2]] and [anc[off+i]] into [anc[off+i+1]]. *)
Definition fold_at (controls anc : list Qubit) (d : Qubit) (off i : nat) : Gate :=
  CCX (nth (i + 2) controls d) (nth (off + i) anc d) (nth (off + i + 1) anc d).

(** Compute: the first fold into [anc[0]], then one fold per further control. *)
Definition compute_folds (controls anc : list Qubit) (d : Qubit) : Circuit :=
  CCX (nth 0 controls d) (nth 1 controls d) (nth 0 anc d)
    :: map (fold_at controls anc d 0) (seq 0 (length controls - 2)).

(** Uncompute: the folds over the last [k-1] ancillae of the pool, descending. *)
Definition uncompute_folds (controls anc : list Qubit) (d : Qubit) : Circuit :=
  let off := length anc - (length controls - 1) in
  rev (map (fold_at controls anc d off) (seq 0 (length controls - 2)))
    ++ [CCX (nth 0 controls d) (nth 1 controls d) (nth off anc d)].

(** Every qubit a gate reads or writes, and the one it writes. *)
Definition gate_qubits (g : Gate) : list Qubit :=
  match g with
  | CCX c1 c2 t => [c1; c2; t]
  | SCG c t => [c; t]
  end.

Definition gate_target (g : Gate) : Qubit :=
  match g with
  | CCX _ _ t => t
  | SCG _ t => t
  end.

Definition gate_control (g : Gate) : Qubit :=
  match g with
  | CCX c1 _ _ => c1
  | SCG c _ => c
  end.

Definition is_ccx (g : Gate) : bool :=
  match g with CCX _ _ _ => true | SCG _ _ => false end.

(** ** Classical boolean semantics *)

(** The target operation, as a function on the target's truth value. *)
Variable U : bool -> bool.

Definition State : Type := Qubit -> bool.

Definition upd (st : State) (q : Qubit) (b : bool) : State :=
  fun q' => if Qubit_eq_dec q' q then b else st q'.

(** [ccx] is the Toffoli gate; the primitive applies [U] to its target when
    its control is true. *)
Definition apply_gate (g : Gate) (st : State) : State :=
  match g with
  | CCX c1 c2 t => upd st t (xorb (st t) (st c1 && st c2))
  | SCG c t => if st c then upd st t (U (st t)) else st
  end.

Definition run (qc : Circuit) (st : State) : State :=
  fold_left (fun s g => apply_gate g s) qc st.

(** ** The argument forms [mcmt] accepts *)

(** The qubits of a controls or targets argument. *)
Definition arg_qubits (a : QArg) : option (list Qubit) :=
  match a with
  | PyRegister qs | PyList qs => Some qs
  | PyNone | PyOther => None
  end.

(** The qubits of an ancilla argument, where [None] is allowed. *)
Definition pool_qubits (a : QArg) : option (list Qubit) :=
  match a with
  | PyNone => Some []
  | PyRegister qs | PyList qs => Some qs
  | PyOther => None
  end.

(** The inputs pass [_check_qubit] and [_check_dups]. *)
Definition validated (cs ts an : list Qubit) : Prop :=
  forallb valid_qubit (cs ++ ts ++ an) = true /\ NoDup (cs ++ ts ++ an).

(** A Toffoli whose target is not one of its controls undoes itself. *)
Definition proper_ccx (g : Gate) : Prop :=
  match g with
  | CCX c1 c2 t => t <> c1 /\ t <> c2
  | SCG _ _ => False
  end.

(** The first fold followed by the next [m] folds of the compute chain. *)
Definition chain_prefix (cs an : list Qubit) (d : Qubit) (m : nat) : Circuit :=
  CCX (nth 0 cs d) (nth 1 cs d) (nth 0 an d) :: map (fold_at cs an d 0) (seq 0 m).

(** ** Properties of whole computations *)

(** A computation that only appends to the circuit and never reads it: on
    any circuit it does what it does on the empty one, after that circuit. *)
Definition appends {A : Type} (m : Prog A) : Prop :=
  forall qc, m qc = (qc ++ fst (m []), snd (m [])).

(** ** Python lists and loops *)

Lemma py_index_nonneg (A : Type) (l : list A) (z : Z) (d : A) (qc : Circuit) :
  (0 <= z)%Z -> (Z.to_nat z < length l)%nat ->
  py_index l z qc = (qc, Returned (nth (Z.to_nat z) l d)).
Proof.
  intros Hz Hlt. unfold py_index, py_get.
  destruct (0 <=? z)%Z eqn:E; [| apply Z.leb_gt in E; lia].
  rewrite (nth_error_nth' l d Hlt). reflexivity.
Qed.

Lemma py_index_nat (A : Type) (l : list A) (n : nat) (d : A) (qc : Circuit) :
  (n < length l)%nat ->
  py_index l (Z.of_nat n) qc = (qc, Returned (nth n l d)).
Proof.
  intros Hlt. rewrite (@py_index_nonneg A l (Z.of_nat n) d); rewrite ?Nat2Z.id; auto; lia.
Qed.

Lemma py_index_0 (A : Type) (l : list A) (d : A) (qc : Circuit) :
  (0 < length l)%nat -> py_index l 0 qc = (qc, Returned (nth 0 l d)).
Proof. intros H. apply (@py_index_nat A l 0 d qc H). Qed.

Lemma py_index_1 (A : Type) (l : list A) (d : A) (qc : Circuit) :
  (1 < length l)%nat -> py_index l 1 qc = (qc, Returned (nth 1 l d)).
Proof. intros H. apply (@py_index_nat A l 1 d qc H). Qed.


Lemma py_range_shift (lo hi : nat) :
  py_range lo hi = map (fun i => Z.of_nat (lo + i)) (seq 0 (hi - lo)).
Proof.
  unfold py_range. generalize (hi - lo)%nat as n. intro n.
  rewrite <- (map_map (fun i => (lo + i)%nat) Z.of_nat). f_equal.
  revert lo. induction n as [| n IH]; intro lo; simpl; [reflexivity |].
  rewrite Nat.add_0_r. f_equal.
  rewrite (IH (S lo)), <- (seq_shift n 0), map_map.
  apply map_ext. intro i. lia.
Qed.

Lemma rev_map_seq (A : Type) (h : nat -> A) (n : nat) :
  rev (map h (seq 0 n)) = map (fun i => h (n - 1 - i)%nat) (seq 0 n).
Proof.
  induction n as [| n IH]; [reflexivity |].
  rewrite seq_S at 1. rewrite map_app, rev_app_distr. simpl.
  rewrite !Nat.sub_0_r. f_equal.
  rewrite IH, <- seq_shift, map_map. apply map_ext.
  intros i. f_equal. lia.
Qed.

(** A loop whose [i]-th pass appends [g i] and moves the local from [f i]
    to [f (S i)]. *)
Lemma for_state_steps (A V : Type) (body : A -> V -> Prog V) (n : nat) :
  forall (h : nat -> A) (f : nat -> V) (g : nat -> Gate),
    (forall i qc, (i < n)%nat ->
                  body (h i) (f i) qc = (qc ++ [g i], Returned (f (S i)))) ->
    forall qc, for_state (map h (seq 0 n)) (f 0%nat) body qc
               = (qc ++ map g (seq 0 n), Returned (f n)).
Proof.
  induction n as [| n IH]; intros h f g Hstep qc; simpl.
  - rewrite app_nil_r. reflexivity.
  - unfold bind. rewrite Hstep by lia.
    rewrite <- seq_shift, !map_map.
    rewrite (IH (fun i => h (S i)) (fun i => f (S i)) (fun i => g (S i))).
    + rewrite <- app_assoc. reflexivity.
    + intros i qc' Hi. apply Hstep. lia.
Qed.

(** The same loop when pass [m] raises before appending anything. *)
Lemma for_state_raises (A V : Type) (body : A -> V -> Prog V) (e : PyError) (m : nat) :
  forall (n : nat) (h : nat -> A) (f : nat -> V) (g : nat -> Gate),
    (m < n)%nat ->
    (forall i qc, (i < m)%nat ->
                  body (h i) (f i) qc = (qc ++ [g i], Returned (f (S i)))) ->
    (forall qc, body (h m) (f m) qc = (qc, Raised e)) ->
    forall qc, for_state (map h (seq 0 n)) (f 0%nat) body qc
               = (qc ++ map g (seq 0 m), Raised e).
Proof.
  induction m as [| m IH]; intros n h f g Hmn Hstep Hraise qc;
    (destruct n as [| n]; [lia |]); simpl; unfold bind.
  - rewrite Hraise, app_nil_r. reflexivity.
  - rewrite Hstep by lia.
    rewrite <- !seq_shift, !map_map.
    rewrite (IH n (fun i => h (S i)) (fun i => f (S i)) (fun i => g (S i))).
    + rewrite <- app_assoc. reflexivity.
    + lia.
    + intros i qc' Hi. apply Hstep. lia.
    + apply Hraise.
Qed.

(** ** What the two chain halves append *)

Lemma compute_ok (controls anc : list Qubit) (d : Qubit) (qc : Circuit) :
  (2 <= length controls)%nat -> (length controls - 1 <= length anc)%nat ->
  _ccx_v_chain_compute controls anc qc
  = (qc ++ compute_folds controls anc d, Returned tt).
Proof.
  intros Hk Ha. unfold _ccx_v_chain_compute, compute_folds, bind at 1.
  rewrite (@py_index_0 _ controls d qc) by lia. unfold bind at 1.
  rewrite (@py_index_1 _ controls d qc) by lia. unfold bind at 1.
  rewrite (@py_index_0 _ anc d qc) by lia. unfold bind at 1.
  unfold ccx at 1, emit at 1. unfold bind at 1.
  rewrite py_range_shift.
  rewrite (@for_state_steps _ _ _ (length controls - 2)
             (fun i => Z.of_nat (2 + i)) (fun i => Z.of_nat i)
             (fold_at controls anc d 0)).
  - rewrite <- app_assoc. reflexivity.
  - intros i qc' Hi. unfold bind, py_assert.
    destruct (Z.of_nat i + 1 <? len anc)%Z eqn:E;
      [| apply Z.ltb_ge in E; unfold len in E; lia].
    unfold ret at 1.
    rewrite (@py_index_nat _ controls (2 + i) d qc') by lia.
    rewrite (@py_index_nat _ anc i d qc') by lia.
    replace (Z.of_nat i + 1)%Z with (Z.of_nat (i + 1)) by lia.
    rewrite (@py_index_nat _ anc (i + 1) d qc') by lia.
    unfold ccx, emit, ret, fold_at. simpl.
    replace (i + 2)%nat with (S (S i)) by lia.
    replace (Z.of_nat (i + 1)) with (Z.of_nat (S i)) by lia.
    reflexivity.
Qed.

(** With [1 <= a < k-1] ancillae the assertion fails once [a] folds have
    been appended. *)
Lemma compute_short (controls anc : list Qubit) (d : Qubit) (qc : Circuit) :
  (1 <= length anc)%nat -> (length anc < length controls - 1)%nat ->
  _ccx_v_chain_compute controls anc qc
  = (qc ++ CCX (nth 0 controls d) (nth 1 controls d) (nth 0 anc d)
        :: map (fold_at controls anc d 0) (seq 0 (length anc - 1)),
     Raised (AssertionError (len anc))).
Proof.
  intros Ha Hk. unfold _ccx_v_chain_compute, bind at 1.
  rewrite (@py_index_0 _ controls d qc) by lia. unfold bind at 1.
  rewrite (@py_index_1 _ controls d qc) by lia. unfold bind at 1.
  rewrite (@py_index_0 _ anc d qc) by lia. unfold bind at 1.
  unfold ccx at 1, emit at 1. unfold bind at 1.
  rewrite py_range_shift.
  rewrite (@for_state_raises _ _ _ (AssertionError (len anc)) (length anc - 1)
             (length controls - 2)
             (fun i => Z.of_nat (2 + i)) (fun i => Z.of_nat i)
             (fold_at controls anc d 0)).
  - rewrite <- app_assoc. reflexivity.
  - lia.
  - intros i qc' Hi. unfold bind, py_assert.
    destruct (Z.of_nat i + 1 <? len anc)%Z eqn:E;
      [| apply Z.ltb_ge in E; unfold len in E; lia].
    unfold ret at 1.
    rewrite (@py_index_nat _ controls (2 + i) d qc') by lia.
    rewrite (@py_index_nat _ anc i d qc') by lia.
    replace (Z.of_nat i + 1)%Z with (Z.of_nat (i + 1)) by lia.
    rewrite (@py_index_nat _ anc (i + 1) d qc') by lia.
    unfold ccx, emit, ret, fold_at. simpl.
    replace (i + 2)%nat with (S (S i)) by lia.
    replace (Z.of_nat (i + 1)) with (Z.of_nat (S i)) by lia.
    reflexivity.
  - intros qc'. unfold bind, py_assert.
    destruct (Z.of_nat (length anc - 1) + 1 <? len anc)%Z eqn:E;
      [apply Z.ltb_lt in E; unfold len in E; lia | reflexivity].
Qed.

(** With too few controls or an empty pool the first fold's arguments
    cannot be read, and nothing is appended. *)
Lemma compute_index_error (controls anc : list Qubit) (qc : Circuit) :
  (length controls < 2)%nat \/ anc = [] ->
  _ccx_v_chain_compute controls anc qc = (qc, Raised IndexError).
Proof.
  intros H. unfold _ccx_v_chain_compute.
  destruct controls as [| c0 [| c1 cs]]; try reflexivity.
  destruct H as [H | ->]; [simpl in H; lia | reflexivity].
Qed.

Lemma uncompute_ok (controls anc : list Qubit) (d : Qubit) (qc : Circuit) :
  (2 <= length controls)%nat -> (length controls - 1 <= length anc)%nat ->
  _ccx_v_chain_uncompute controls anc qc
  = (qc ++ uncompute_folds controls anc d, Returned tt).
Proof.
  intros Hk Ha. unfold _ccx_v_chain_uncompute, uncompute_folds.
  set (n := (length controls - 2)%nat).
  set (off := (length anc - (length controls - 1))%nat).
  unfold bind at 1. rewrite py_range_shift, rev_map_seq. fold n.
  replace (len anc - 1)%Z with (len anc - 1 - Z.of_nat 0)%Z by lia.
  rewrite (@for_state_steps _ _ _ n
             (fun i => Z.of_nat (2 + (n - 1 - i)))
             (fun i => (len anc - 1 - Z.of_nat i)%Z)
             (fun i => fold_at controls anc d off (n - 1 - i))).
  - unfold bind at 1.
    rewrite (@py_index_0 _ controls d) by lia. unfold bind at 1.
    rewrite (@py_index_1 _ controls d) by lia. unfold bind at 1.
    rewrite (@py_index_nonneg _ anc _ d) by (unfold len; lia).
    unfold ccx, emit. rewrite <- app_assoc, rev_map_seq.
    replace (Z.to_nat (len anc - 1 - Z.of_nat n)) with off
      by (unfold len; lia).
    reflexivity.
  - intros i qc' Hi. unfold bind.
    rewrite (@py_index_nat _ controls (2 + (n - 1 - i)) d qc') by lia.
    rewrite (@py_index_nonneg _ anc _ d qc') by (unfold len; lia).
    rewrite (@py_index_nonneg _ anc _ d qc') by (unfold len; lia).
    unfold ccx, emit, ret, fold_at.
    replace (Z.to_nat (len anc - 1 - Z.of_nat i - 1)) with (off + (n - 1 - i))%nat
      by (unfold len; lia).
    replace (Z.to_nat (len anc - 1 - Z.of_nat i)) with (off + (n - 1 - i) + 1)%nat
      by (unfold len; lia).
    replace (2 + (n - 1 - i))%nat with (n - 1 - i + 2)%nat by lia.
    replace (len anc - 1 - Z.of_nat (S i))%Z with (len anc - 1 - Z.of_nat i - 1)%Z
      by lia.
    reflexivity.
Qed.

(** ** Validation *)

Lemma nodup_length_le (l : list Qubit) :
  (length (nodup Qubit_eq_dec l) <= length l)%nat.
Proof.
  induction l as [| x l IH]; simpl; [lia |].
  destruct (in_dec Qubit_eq_dec x l); simpl; lia.
Qed.

Lemma nodup_length_iff (l : list Qubit) :
  length (nodup Qubit_eq_dec l) = length l <-> NoDup l.
Proof.
  split.
  - induction l as [| x l IH]; simpl; intros H; [constructor |].
    destruct (in_dec Qubit_eq_dec x l) as [Hin | Hnin].
    + pose proof (nodup_length_le l). lia.
    + simpl in H. constructor; auto.
  - intros H. rewrite (nodup_fixed_point Qubit_eq_dec H). reflexivity.
Qed.

Lemma check_dups_ok (l : list Qubit) (qc : Circuit) :
  NoDup l -> _check_dups l qc = (qc, Returned tt).
Proof.
  intros H. unfold _check_dups.
  apply nodup_length_iff in H. apply Nat.eqb_eq in H. rewrite H. reflexivity.
Qed.

Lemma check_dups_bad (l : list Qubit) (qc : Circuit) :
  ~ NoDup l -> _check_dups l qc = (qc, Raised DuplicateQubit).
Proof.
  intros H. unfold _check_dups.
  destruct (Nat.eqb _ _) eqn:E; [| reflexivity].
  apply Nat.eqb_eq, nodup_length_iff in E. contradiction.
Qed.

Lemma NoDup_dec (l : list Qubit) : {NoDup l} + {~ NoDup l}.
Proof.
  destruct (Nat.eq_dec (length (nodup Qubit_eq_dec l)) (length l)) as [E | E].
  - left. apply nodup_length_iff, E.
  - right. intro H. apply E, nodup_length_iff, H.
Qed.

Lemma check_qubits_ok (l : list Qubit) (qc : Circuit) :
  forallb valid_qubit l = true -> for_each l _check_qubit qc = (qc, Returned tt).
Proof.
  induction l as [| x l IH]; simpl; intros H; [reflexivity |].
  apply andb_prop in H. destruct H as [Hx Hl].
  unfold bind, _check_qubit. rewrite Hx. simpl. auto.
Qed.

Lemma check_qubits_bad (l : list Qubit) (qc : Circuit) :
  forallb valid_qubit l = false ->
  for_each l _check_qubit qc = (qc, Raised InvalidQubit).
Proof.
  induction l as [| x l IH]; simpl; intros H; [discriminate |].
  unfold bind, _check_qubit. destruct (valid_qubit x); simpl in *; auto.
Qed.

(** The per-target loop: the control is read again on every pass. *)
Lemma targets_loop (l targets : list Qubit) (i : Z) (x : Qubit) (qc : Circuit) :
  py_get l i = Some x ->
  for_each targets (fun qubit => c <- py_index l i ;; primitive_gate c qubit) qc
  = (qc ++ map (SCG x) targets, Returned tt).
Proof.
  intros Hx.
  assert (Hi : forall qc', @py_index Circuit _ l i qc' = (qc', Returned x))
    by (intro; unfold py_index; rewrite Hx; reflexivity).
  revert qc. induction targets as [| t ts IH]; intros qc; simpl.
  - rewrite app_nil_r. reflexivity.
  - unfold bind at 1. unfold bind at 1. rewrite Hi.
    unfold primitive_gate at 1, emit. rewrite IH, <- app_assoc. reflexivity.
Qed.

Lemma py_get_nat (A : Type) (l : list A) (n : nat) (d : A) :
  (n < length l)%nat -> py_get l (Z.of_nat n) = Some (nth n l d).
Proof.
  intros H. unfold py_get.
  destruct (0 <=? Z.of_nat n)%Z eqn:E; [| apply Z.leb_gt in E; lia].
  rewrite Nat2Z.id. apply nth_error_nth', H.
Qed.

Lemma mcmt_args (q_controls q_ancillae q_targets : QArg)
      (cs an ts : list Qubit) (f : Qubit -> Qubit -> Prog unit) (mode : string) :
  arg_qubits q_controls = Some cs -> pool_qubits q_ancillae = Some an ->
  arg_qubits q_targets = Some ts ->
  mcmt q_controls q_ancillae f q_targets mode
  = mcmt (PyList cs) (PyList an) f (PyList ts) mode.
Proof.
  intros Hc Ha Ht.
  destruct q_controls; try discriminate; destruct q_ancillae; try discriminate;
    destruct q_targets; try discriminate;
    simpl in Hc, Ha, Ht; injection Hc as <-; injection Ha as <-;
    injection Ht as <-; reflexivity.
Qed.

Ltac enter_mcmt Hv :=
  unfold mcmt; cbn [bind ret]; unfold bind at 1;
  rewrite (check_qubits_ok _ _ (proj1 Hv)); cbv beta iota; unfold bind at 1;
  rewrite (check_dups_ok _ (proj2 Hv)); cbv beta iota.

Lemma mcmt_invalid (cs an ts : list Qubit) f mode (qc : Circuit) :
  forallb valid_qubit (cs ++ ts ++ an) = false ->
  mcmt (PyList cs) (PyList an) f (PyList ts) mode qc = (qc, Raised InvalidQubit).
Proof.
  intros H. unfold mcmt; cbn [bind ret]. unfold bind at 1.
  rewrite (check_qubits_bad _ _ H). reflexivity.
Qed.

Lemma mcmt_duplicate (cs an ts : list Qubit) f mode (qc : Circuit) :
  forallb valid_qubit (cs ++ ts ++ an) = true -> ~ NoDup (cs ++ ts ++ an) ->
  mcmt (PyList cs) (PyList an) f (PyList ts) mode qc = (qc, Raised DuplicateQubit).
Proof.
  intros H Hd. unfold mcmt; cbn [bind ret]. unfold bind at 1.
  rewrite (check_qubits_ok _ _ H). cbv beta iota. unfold bind at 1.
  rewrite (check_dups_bad _ Hd). reflexivity.
Qed.

Lemma mcmt_single (c : Qubit) (an ts : list Qubit) mode (qc : Circuit) :
  validated [c] ts an ->
  mcmt (PyList [c]) (PyList an) primitive_gate (PyList ts) mode qc
  = (qc ++ map (SCG c) ts, Returned tt).
Proof.
  intros Hv. enter_mcmt Hv.
  change (len [c] =? 1)%Z with true. cbv iota.
  apply targets_loop. reflexivity.
Qed.

Lemma len_eqb_1 (A : Type) (l : list A) :
  length l <> 1%nat -> (len l =? 1)%Z = false.
Proof. intros H. apply Z.eqb_neq. unfold len. lia. Qed.

Lemma mcmt_bad_mode (cs an ts : list Qubit) mode (qc : Circuit) :
  validated cs ts an -> length cs <> 1%nat -> String.eqb mode "basic" = false ->
  mcmt (PyList cs) (PyList an) primitive_gate (PyList ts) mode qc
  = (qc, Raised (ValueError (UnrecognizedMode mode))).
Proof.
  intros Hv Hk Hm. enter_mcmt Hv.
  rewrite (len_eqb_1 _ Hk), Hm. reflexivity.
Qed.

Lemma mcmt_basic_ok (cs an ts : list Qubit) (d : Qubit) (qc : Circuit) :
  validated cs ts an ->
  (2 <= length cs)%nat -> (length cs - 1 <= length an)%nat ->
  mcmt (PyList cs) (PyList an) primitive_gate (PyList ts) "basic" qc
  = (qc ++ compute_folds cs an d
        ++ map (SCG (nth (length an - 1) an d)) ts
        ++ uncompute_folds cs an d,
     Returned tt).
Proof.
  intros Hv Hk Ha. enter_mcmt Hv.
  rewrite len_eqb_1 by lia. cbn [String.eqb Ascii.eqb Bool.eqb].
  cbv iota. unfold bind at 1. rewrite (@compute_ok cs an d qc Hk Ha).
  unfold bind at 1.
  rewrite (@targets_loop an ts _ (nth (length an - 1) an d)).
  - rewrite (@uncompute_ok cs an d _ Hk Ha), <- !app_assoc. reflexivity.
  - replace (len an - 1)%Z with (Z.of_nat (length an - 1)) by (unfold len; lia).
    apply py_get_nat. lia.
Qed.

Lemma mcmt_basic_short (cs an ts : list Qubit) (d : Qubit) (qc : Circuit) :
  validated cs ts an ->
  (1 <= length an)%nat -> (length an < length cs - 1)%nat ->
  mcmt (PyList cs) (PyList an) primitive_gate (PyList ts) "basic" qc
  = (qc ++ CCX (nth 0 cs d) (nth 1 cs d) (nth 0 an d)
        :: map (fold_at cs an d 0) (seq 0 (length an - 1)),
     Raised (AssertionError (len an))).
Proof.
  intros Hv Ha Hk. enter_mcmt Hv.
  rewrite len_eqb_1 by lia. cbn [String.eqb Ascii.eqb Bool.eqb].
  cbv iota. unfold bind at 1. rewrite (@compute_short cs an d qc Ha Hk).
  reflexivity.
Qed.

Lemma mcmt_basic_index_error (cs an ts : list Qubit) (qc : Circuit) :
  validated cs ts an ->
  length cs <> 1%nat -> (length cs < 2)%nat \/ an = [] ->
  mcmt (PyList cs) (PyList an) primitive_gate (PyList ts) "basic" qc
  = (qc, Raised IndexError).
Proof.
  intros Hv Hk Ha. enter_mcmt Hv.
  rewrite len_eqb_1 by lia. cbn [String.eqb Ascii.eqb Bool.eqb].
  cbv iota. unfold bind at 1. rewrite (@compute_index_error cs an qc Ha).
  reflexivity.
Qed.

(** ** Running gate sequences *)

Lemma run_app (l1 l2 : Circuit) (st : State) :
  run (l1 ++ l2) st = run l2 (run l1 st).
Proof. apply fold_left_app. Qed.

Lemma upd_same (st : State) (q : Qubit) (b : bool) : upd st q b q = b.
Proof. unfold upd. destruct (Qubit_eq_dec q q); congruence. Qed.

Lemma upd_other (st : State) (q q' : Qubit) (b : bool) :
  q' <> q -> upd st q b q' = st q'.
Proof. intros H. unfold upd. destruct (Qubit_eq_dec q' q); congruence. Qed.

Lemma apply_gate_frame (g : Gate) (st : State) (q : Qubit) :
  gate_target g <> q -> apply_gate g st q = st q.
Proof.
  destruct g as [c1 c2 t | c t]; simpl; intros H.
  - apply upd_other. congruence.
  - destruct (st c); [apply upd_other; congruence | reflexivity].
Qed.

(** A qubit no gate writes keeps its value. *)
Lemma run_frame (l : Circuit) (q : Qubit) :
  (forall g, In g l -> gate_target g <> q) ->
  forall st, run l st q = st q.
Proof.
  induction l as [| g l IH]; intros H st; simpl; [reflexivity |].
  unfold run in IH. rewrite IH by (intros g' Hg'; apply H; right; exact Hg').
  apply apply_gate_frame, H. left. reflexivity.
Qed.

(** Gates that stay inside a set of qubits act the same on two states that
    agree on the set. *)
Lemma apply_gate_agree (P : Qubit -> Prop) (g : Gate) (st st' : State) :
  (forall q, In q (gate_qubits g) -> P q) ->
  (forall q, P q -> st q = st' q) ->
  forall q, P q -> apply_gate g st q = apply_gate g st' q.
Proof.
  intros Hg Hagree q Hq.
  destruct g as [c1 c2 t | c t]; simpl in *.
  - rewrite <- (Hagree c1), <- (Hagree c2), <- (Hagree t) by auto.
    unfold upd. destruct (Qubit_eq_dec q t); auto.
  - rewrite <- (Hagree c), <- (Hagree t) by auto.
    destruct (st c); auto. unfold upd. destruct (Qubit_eq_dec q t); auto.
Qed.

Lemma run_agree (P : Qubit -> Prop) (l : Circuit) :
  (forall g q, In g l -> In q (gate_qubits g) -> P q) ->
  forall st st' : State,
    (forall q, P q -> st q = st' q) ->
    forall q, P q -> run l st q = run l st' q.
Proof.
  induction l as [| g l IH]; intros Hl st st' Hagree q Hq; simpl; [auto |].
  unfold run in IH. apply IH; auto.
  - intros g' q' Hg'. apply Hl. right. exact Hg'.
  - apply apply_gate_agree; auto.
    intros q' Hq'. apply (Hl g); auto. left. reflexivity.
Qed.

Lemma apply_ccx_twice (g : Gate) (st : State) (q : Qubit) :
  proper_ccx g -> apply_gate g (apply_gate g st) q = st q.
Proof.
  destruct g as [c1 c2 t | c t]; simpl; [| contradiction].
  intros [H1 H2]. unfold upd.
  destruct (Qubit_eq_dec q t) as [-> | Hq]; [| reflexivity].
  destruct (Qubit_eq_dec t t) as [_ | Hn]; [| congruence].
  destruct (Qubit_eq_dec c1 t) as [E1 | _]; [congruence |].
  destruct (Qubit_eq_dec c2 t) as [E2 | _]; [congruence |].
  destruct (st t), (st c1), (st c2); reflexivity.
Qed.

(** Replaying a sequence of such Toffolis in reverse order restores every
    qubit. *)
Lemma run_rev_inverse (l : Circuit) :
  (forall g, In g l -> proper_ccx g) ->
  forall (st : State) (q : Qubit), run (l ++ rev l) st q = st q.
Proof.
  induction l as [| g l IH]; intros Hl st q; [reflexivity |].
  simpl rev. rewrite app_assoc, run_app. simpl.
  change (fold_left (fun s g0 => apply_gate g0 s) (l ++ rev l) (apply_gate g st))
    with (run (l ++ rev l) (apply_gate g st)).
  rewrite (@apply_gate_agree (fun _ => True) g _ (apply_gate g st)); auto.
  - apply apply_ccx_twice, Hl. left. reflexivity.
  - intros q' _. apply IH. intros g' Hg'. apply Hl. right. exact Hg'.
Qed.

(** The per-target applications of the primitive under one control. *)
Lemma run_targets (c : Qubit) (ts : list Qubit) :
  NoDup ts -> ~ In c ts ->
  forall (st : State) (q : Qubit),
    run (map (SCG c) ts) st q
    = if in_dec Qubit_eq_dec q ts then (if st c then U (st q) else st q) else st q.
Proof.
  induction ts as [| t ts IH]; intros Hnd Hc st q; [reflexivity |].
  apply NoDup_cons_iff in Hnd. destruct Hnd as [Ht Hnd].
  assert (Hct : t <> c) by (intro E; apply Hc; left; exact E).
  assert (Hc' : ~ In c ts) by (intro E; apply Hc; right; exact E).
  simpl map. change (run (SCG c t :: map (SCG c) ts) st q)
    with (run (map (SCG c) ts) (apply_gate (SCG c t) st) q).
  rewrite (IH Hnd Hc'). rewrite (@apply_gate_frame (SCG c t) st c) by exact Hct.
  destruct (in_dec Qubit_eq_dec q (t :: ts)) as [[E | Hin] | Hnin].
  - subst q. destruct (in_dec Qubit_eq_dec t ts); [contradiction |].
    simpl. destruct (st c); [apply upd_same | reflexivity].
  - assert (Hqt : t <> q) by (intro E; subst; contradiction).
    destruct (in_dec Qubit_eq_dec q ts); [| contradiction].
    rewrite (@apply_gate_frame (SCG c t) st q) by exact Hqt. reflexivity.
  - destruct (in_dec Qubit_eq_dec q ts) as [Hin | _];
      [exfalso; apply Hnin; right; exact Hin |].
    apply apply_gate_frame. simpl. intro E. apply Hnin. left. exact E.
Qed.

(** ** The compute chain under boolean semantics *)

Lemma NoDup_app_disjoint (l1 l2 : list Qubit) (q : Qubit) :
  NoDup (l1 ++ l2) -> In q l1 -> In q l2 -> False.
Proof.
  induction l1 as [| x l1 IH]; simpl; intros Hnd H1 H2; [contradiction |].
  apply NoDup_cons_iff in Hnd. destruct Hnd as [Hx Hnd].
  destruct H1 as [-> | H1]; [| eauto].
  apply Hx, in_or_app. right. exact H2.
Qed.

Lemma forallb_firstn_S (f : Qubit -> bool) (l : list Qubit) (d : Qubit) (n : nat) :
  (n < length l)%nat ->
  forallb f (firstn (S n) l) = forallb f (firstn n l) && f (nth n l d).
Proof.
  revert n. induction l as [| x l IH]; intros n Hn; simpl in Hn; [lia |].
  destruct n as [| n].
  - simpl. rewrite andb_true_r. reflexivity.
  - change (forallb f (firstn (S (S n)) (x :: l)))
      with (f x && forallb f (firstn (S n) l)).
    change (forallb f (firstn (S n) (x :: l))) with (f x && forallb f (firstn n l)).
    change (nth (S n) (x :: l) d) with (nth n l d).
    rewrite (IH n) by lia. rewrite andb_assoc. reflexivity.
Qed.

Lemma chain_prefix_S (cs an : list Qubit) (d : Qubit) (m : nat) :
  chain_prefix cs an d (S m) = chain_prefix cs an d m ++ [fold_at cs an d 0 m].
Proof.
  unfold chain_prefix. rewrite seq_S, map_app. reflexivity.
Qed.

Lemma chain_prefix_gate (cs an : list Qubit) (d : Qubit) (m : nat) (g : Gate) :
  In g (chain_prefix cs an d m) ->
  g = CCX (nth 0 cs d) (nth 1 cs d) (nth 0 an d)
  \/ exists i, (i < m)%nat
               /\ g = CCX (nth (i + 2) cs d) (nth i an d) (nth (i + 1) an d).
Proof.
  intros [<- | Hin]; [left; reflexivity | right].
  apply in_map_iff in Hin. destruct Hin as [i [<- Hi]].
  apply in_seq in Hi. exists i. split; [lia | reflexivity].
Qed.

Lemma chain_prefix_target (cs an : list Qubit) (d : Qubit) (m : nat) (g : Gate) :
  In g (chain_prefix cs an d m) ->
  exists i, (i <= m)%nat /\ gate_target g = nth i an d.
Proof.
  intros Hin. apply chain_prefix_gate in Hin.
  destruct Hin as [-> | [i [Hi ->]]].
  - exists 0%nat. split; [lia | reflexivity].
  - exists (i + 1)%nat. split; [lia | reflexivity].
Qed.

Section Chain.

Variables (cs an : list Qubit) (d : Qubit).
Hypothesis Hnd : NoDup (cs ++ an).

Lemma control_not_ancilla (i j : nat) :
  (i < length cs)%nat -> (j < length an)%nat -> nth i cs d <> nth j an d.
Proof.
  intros Hi Hj E.
  apply (@NoDup_app_disjoint cs an (nth i cs d) Hnd).
  - apply nth_In, Hi.
  - rewrite E. apply nth_In, Hj.
Qed.

Lemma ancilla_distinct (i j : nat) :
  (i < length an)%nat -> (j < length an)%nat -> i <> j ->
  nth i an d <> nth j an d.
Proof.
  intros Hi Hj Hij E. apply Hij.
  apply (proj1 (NoDup_nth an d) (NoDup_app_remove_l _ _ Hnd) i j Hi Hj E).
Qed.

Lemma chain_prefix_proper (m : nat) (g : Gate) :
  (m + 2 <= length cs)%nat -> (m < length an)%nat ->
  In g (chain_prefix cs an d m) -> proper_ccx g.
Proof.
  intros Hk Ha Hin. apply chain_prefix_gate in Hin.
  destruct Hin as [-> | [i [Hi ->]]]; simpl; split; intro E.
  - apply (@control_not_ancilla 0 0); try lia. symmetry. exact E.
  - apply (@control_not_ancilla 1 0); try lia. symmetry. exact E.
  - apply (@control_not_ancilla (i + 2) (i + 1)); try lia. symmetry. exact E.
  - apply (@ancilla_distinct (i + 1) i); try lia. exact E.
Qed.

Lemma chain_prefix_within (m : nat) (g : Gate) (q : Qubit) :
  (m + 2 <= length cs)%nat -> (m < length an)%nat ->
  In g (chain_prefix cs an d m) -> In q (gate_qubits g) -> In q (cs ++ an).
Proof.
  intros Hk Ha Hin Hq. apply chain_prefix_gate in Hin.
  apply in_or_app.
  destruct Hin as [-> | [i [Hi ->]]]; simpl in Hq;
    repeat (destruct Hq as [<- | Hq]); try contradiction;
    try (left; apply nth_In; lia); right; apply nth_In; lia.
Qed.

(** Controls are never written by the chain. *)
Lemma chain_prefix_keeps_control (m i : nat) (st : State) :
  (m < length an)%nat -> (i < length cs)%nat ->
  run (chain_prefix cs an d m) st (nth i cs d) = st (nth i cs d).
Proof.
  intros Ha Hi. apply run_frame. intros g Hg E.
  apply chain_prefix_target in Hg. destruct Hg as [j [Hj Ej]].
  apply (@control_not_ancilla i j); try lia. congruence.
Qed.

(** Ancillae past the last fold are never written by the chain. *)
Lemma chain_prefix_keeps_later (m j : nat) (st : State) :
  (m < j)%nat -> (j < length an)%nat ->
  run (chain_prefix cs an d m) st (nth j an d) = st (nth j an d).
Proof.
  intros Hm Hj. apply run_frame. intros g Hg E.
  apply chain_prefix_target in Hg. destruct Hg as [i [Hi Ei]].
  apply (@ancilla_distinct i j); try lia. congruence.
Qed.

(** After [m] folds past the first, ancilla [m] holds the conjunction of
    the first [m+2] controls. *)
Lemma chain_prefix_value (st : State) (m : nat) :
  (forall q, In q an -> st q = false) ->
  (m + 2 <= length cs)%nat -> (m < length an)%nat ->
  run (chain_prefix cs an d m) st (nth m an d)
  = forallb st (firstn (m + 2) cs).
Proof.
  intros Hzero. induction m as [| m IH]; intros Hk Ha.
  - unfold chain_prefix. simpl map. simpl run.
    rewrite upd_same, (Hzero (nth 0 an d)) by (apply nth_In; lia).
    simpl "+". rewrite (@forallb_firstn_S st cs d 1) by lia.
    rewrite (@forallb_firstn_S st cs d 0) by lia.
    simpl. reflexivity.
  - rewrite chain_prefix_S, run_app.
    change (run [fold_at cs an d 0 m] (run (chain_prefix cs an d m) st))
      with (apply_gate (fold_at cs an d 0 m) (run (chain_prefix cs an d m) st)).
    unfold fold_at, apply_gate.
    replace (0 + m + 1)%nat with (S m) by lia.
    replace (0 + m)%nat with m by lia.
    rewrite upd_same.
    rewrite (@chain_prefix_keeps_later m (S m)) by lia.
    rewrite (Hzero (nth (S m) an d)) by (apply nth_In; lia).
    rewrite (@chain_prefix_keeps_control m (m + 2)) by lia.
    rewrite IH by lia.
    replace (S m + 2)%nat with (S (m + 2)) by lia.
    rewrite (@forallb_firstn_S st cs d (m + 2)) by lia.
    rewrite andb_comm. reflexivity.
Qed.

End Chain.

(** ** The whole emitted sequence when the pool has exactly [k-1] ancillae *)

Lemma uncompute_exact (cs an : list Qubit) (d : Qubit) :
  (2 <= length cs)%nat -> length an = (length cs - 1)%nat ->
  uncompute_folds cs an d = rev (compute_folds cs an d).
Proof.
  intros Hk Ha. unfold uncompute_folds, compute_folds.
  rewrite Ha, Nat.sub_diag. reflexivity.
Qed.

Lemma NoDup_outer (l1 l2 l3 : list Qubit) :
  NoDup (l1 ++ l2 ++ l3) -> NoDup (l1 ++ l3).
Proof.
  induction l1 as [| x l1 IH]; simpl; intros H.
  - apply (NoDup_app_remove_l _ _ H).
  - apply NoDup_cons_iff in H. destruct H as [Hx H].
    constructor; [| auto].
    intro Hin. apply Hx. apply in_app_or in Hin.
    apply in_or_app. destruct Hin as [Hin | Hin]; [left; exact Hin |].
    right. apply in_or_app. right. exact Hin.
Qed.

Lemma target_not_chain (cs ts an : list Qubit) (q : Qubit) :
  NoDup (cs ++ ts ++ an) -> In q ts -> ~ In q (cs ++ an).
Proof.
  intros Hnd Hq Hin. apply in_app_or in Hin. destruct Hin as [Hin | Hin].
  - apply (@NoDup_app_disjoint cs (ts ++ an) q Hnd Hin).
    apply in_or_app. left. exact Hq.
  - apply (@NoDup_app_disjoint ts an q (NoDup_app_remove_l _ _ Hnd) Hq Hin).
Qed.

Section ExactPool.

Variables (cs ts an : list Qubit) (d x : Qubit).
Hypothesis Hnd : NoDup (cs ++ ts ++ an).
Hypothesis Hk : (2 <= length cs)%nat.
Hypothesis Ha : length an = (length cs - 1)%nat.

(** Compute, any primitives on the targets, then the mirrored folds:
    every qubit that is not a target is back at its value. *)
Lemma exact_pool_restores (st : State) (q : Qubit) :
  ~ In q ts ->
  run (compute_folds cs an d ++ map (SCG x) ts ++ rev (compute_folds cs an d)) st q
  = st q.
Proof.
  intros Hq. rewrite !run_app.
  set (st1 := run (compute_folds cs an d) st).
  assert (Hin : forall g q', In g (rev (compute_folds cs an d)) ->
                             In q' (gate_qubits g) -> ~ In q' ts).
  { intros g q' Hg Hq' Hin. apply (@target_not_chain cs ts an q' Hnd Hin).
    apply in_rev in Hg.
    apply (@chain_prefix_within cs an d (length cs - 2) g q'); auto; lia. }
  rewrite (@run_agree (fun q' => ~ In q' ts) (rev (compute_folds cs an d))
             Hin (run (map (SCG x) ts) st1) st1).
  - unfold st1. rewrite <- run_app.
    apply run_rev_inverse. intros g Hg.
    apply (@chain_prefix_proper cs an d (NoDup_outer _ _ _ Hnd) (length cs - 2));
      [lia | lia | exact Hg].
  - intros q' Hq'. apply run_frame. intros g Hg E.
    apply in_map_iff in Hg. destruct Hg as [t [<- Ht]]. simpl in E.
    subst q'. contradiction.
  - exact Hq.
Qed.

(** A target receives the operation exactly when the primitive's control,
    read after compute, is true. *)
Lemma exact_pool_target (st : State) (t : Qubit) :
  In t ts -> ~ In x ts ->
  run (compute_folds cs an d ++ map (SCG x) ts ++ rev (compute_folds cs an d)) st t
  = if run (compute_folds cs an d) st x then U (st t) else st t.
Proof.
  intros Ht Hx. rewrite app_assoc, run_app, run_app.
  assert (Htc : forall g, In g (compute_folds cs an d) -> gate_target g <> t).
  { intros g Hg E. apply (@target_not_chain cs ts an t Hnd Ht).
    apply (@chain_prefix_within cs an d (length cs - 2) g t); try lia; auto.
    destruct g; simpl in *; auto. }
  rewrite run_frame by (intros g Hg; apply Htc, in_rev, Hg).
  rewrite run_targets; auto.
  - destruct (in_dec Qubit_eq_dec t ts); [| contradiction].
    rewrite (run_frame _ Htc). reflexivity.
  - apply NoDup_app_remove_l in Hnd. apply (NoDup_app_remove_r _ _ Hnd).
Qed.

End ExactPool.

(** ** Every way a call of [mcmt] on lists can end *)

Lemma mcmt_bad_args (q_controls q_ancillae q_targets : QArg)
      (f : Qubit -> Qubit -> Prog unit) (mode : string) (qc : Circuit) :
  arg_qubits q_controls = None \/ arg_qubits q_targets = None
  \/ pool_qubits q_ancillae = None ->
  exists k, mcmt q_controls q_ancillae f q_targets mode qc
            = (qc, Raised (ValueError k))
            /\ (k = BadControls \/ k = BadTargets \/ k = BadAncilla).
Proof.
  intros H.
  destruct q_controls as [| cs | cs |];
    try (exists BadControls; split; [reflexivity | auto]);
    (destruct q_targets as [| ts | ts |];
     try (exists BadTargets; split; [reflexivity | auto]);
     (destruct q_ancillae as [| an | an |];
      try (exists BadAncilla; split; [reflexivity | auto]);
      simpl in H; destruct H as [H | [H | H]]; discriminate)).
Qed.

Lemma mcmt_outcome (cs an ts : list Qubit) (mode : string) (qc : Circuit) :
  let r := mcmt (PyList cs) (PyList an) primitive_gate (PyList ts) mode qc in
  r = (qc, Raised InvalidQubit)
  \/ r = (qc, Raised DuplicateQubit)
  \/ (validated cs ts an
      /\ ((exists c, cs = [c] /\ r = (qc ++ map (SCG c) ts, Returned tt))
          \/ (length cs <> 1%nat /\ String.eqb mode "basic" = false
              /\ r = (qc, Raised (ValueError (UnrecognizedMode mode))))
          \/ (length cs <> 1%nat /\ mode = "basic"%string
              /\ ((length cs < 2)%nat \/ an = [])
              /\ r = (qc, Raised IndexError))
          \/ (mode = "basic"%string
              /\ (1 <= length an)%nat /\ (length an < length cs - 1)%nat
              /\ exists d, r = (qc ++ chain_prefix cs an d (length an - 1),
                                Raised (AssertionError (len an))))
          \/ (mode = "basic"%string
              /\ (2 <= length cs)%nat /\ (length cs - 1 <= length an)%nat
              /\ exists d, r = (qc ++ compute_folds cs an d
                                   ++ map (SCG (nth (length an - 1) an d)) ts
                                   ++ uncompute_folds cs an d,
                                Returned tt)))).
Proof.
  intros r. subst r.
  destruct (forallb valid_qubit (cs ++ ts ++ an)) eqn:Hvalid;
    [| left; apply mcmt_invalid, Hvalid].
  destruct (NoDup_dec (cs ++ ts ++ an)) as [Hnd | Hnd];
    [| right; left; apply mcmt_duplicate; assumption].
  right. right.
  assert (Hv : validated cs ts an) by (split; assumption).
  split; [exact Hv |].
  destruct (Nat.eq_dec (length cs) 1) as [Hk1 | Hk1].
  { left. destruct cs as [| c [| c' cs']]; try discriminate.
    exists c. split; [reflexivity | apply mcmt_single, Hv]. }
  right.
  destruct (String.eqb mode "basic") eqn:Hmode.
  2:{ left. split; [exact Hk1 | split; [reflexivity |]].
      apply mcmt_bad_mode; auto. }
  right. apply String.eqb_eq in Hmode. subst mode.
  destruct cs as [| c0 cs'].
  { left. split; [exact Hk1 | split; [reflexivity |]].
    split; [left; simpl; lia |].
    apply mcmt_basic_index_error; [exact Hv | exact Hk1 | left; simpl; lia]. }
  destruct an as [| a0 an'].
  { left. split; [exact Hk1 | split; [reflexivity |]].
    split; [right; reflexivity |].
    apply mcmt_basic_index_error; [exact Hv | exact Hk1 | right; reflexivity]. }
  right.
  destruct (le_lt_dec (length (c0 :: cs') - 1) (length (a0 :: an'))) as [Hle | Hlt].
  - right. split; [reflexivity |].
    split; [simpl in *; lia |]. split; [exact Hle |].
    exists c0. apply mcmt_basic_ok; auto. simpl in *. lia.
  - left. split; [reflexivity |].
    split; [simpl; lia |]. split; [exact Hlt |].
    exists c0. apply mcmt_basic_short; auto. simpl. lia.
Qed.

Lemma compute_folds_length (cs an : list Qubit) (d : Qubit) :
  (2 <= length cs)%nat -> length (compute_folds cs an d) = (length cs - 1)%nat.
Proof.
  intros Hk. unfold compute_folds. simpl. rewrite length_map, length_seq. lia.
Qed.

Lemma uncompute_folds_length (cs an : list Qubit) (d : Qubit) :
  (2 <= length cs)%nat -> length (uncompute_folds cs an d) = (length cs - 1)%nat.
Proof.
  intros Hk. unfold uncompute_folds.
  rewrite length_app, length_rev, length_map, length_seq. simpl. lia.
Qed.

Lemma folds_are_ccx (cs an : list Qubit) (d : Qubit) (off : nat) (l : list nat) :
  forallb is_ccx (map (fold_at cs an d off) l) = true.
Proof. induction l as [| i l IH]; simpl; auto. Qed.

Lemma compute_folds_ccx (cs an : list Qubit) (d : Qubit) :
  forallb is_ccx (compute_folds cs an d) = true.
Proof. unfold compute_folds. simpl. apply folds_are_ccx. Qed.

Lemma uncompute_folds_ccx (cs an : list Qubit) (d : Qubit) :
  forallb is_ccx (uncompute_folds cs an d) = true.
Proof.
  unfold uncompute_folds. rewrite forallb_app. simpl. rewrite andb_true_r.
  apply forallb_forall. intros g Hg. apply in_rev in Hg.
  apply in_map_iff in Hg. destruct Hg as [i [<- _]]. reflexivity.
Qed.

(** ** The specification's claims, on arbitrary qubits *)

(** With exactly the [k-1] ancillae the chain uses (or a single control),
    [mcmt] realises the multi-controlled operation: every target receives
    [U] exactly when all controls are true, and every other qubit, the
    ancillae included, ends at the value it started with. *)
Lemma mcmt_exact_pool_correct (cs ts an : list Qubit) (st : State) (qc : Circuit) :
  validated cs ts an ->
  length cs = 1%nat \/ ((2 <= length cs)%nat /\ length an = (length cs - 1)%nat) ->
  (forall q, In q an -> st q = false) ->
  exists emitted,
    mcmt (PyList cs) (PyList an) primitive_gate (PyList ts) "basic" qc
    = (qc ++ emitted, Returned tt)
    /\ (forall t, In t ts ->
                  run emitted st t = if forallb st cs then U (st t) else st t)
    /\ (forall q, ~ In q ts -> run emitted st q = st q).
Proof.
  intros Hv Hshape Hzero. pose proof Hv as [_ Hnd].
  destruct Hshape as [Hk1 | [Hk Ha]].
  - destruct cs as [| c [| c' cs']]; try discriminate.
    exists (map (SCG c) ts). split; [apply mcmt_single, Hv |].
    assert (Hc : ~ In c ts).
    { intro Hin. apply (@NoDup_app_disjoint [c] (ts ++ an) c Hnd);
        [left; reflexivity | apply in_or_app; left; exact Hin]. }
    assert (Hts : NoDup ts).
    { apply NoDup_app_remove_l in Hnd. apply (NoDup_app_remove_r _ _ Hnd). }
    split; intros q Hq; rewrite (@run_targets c ts Hts Hc st q);
      destruct (in_dec Qubit_eq_dec q ts); try contradiction; [| reflexivity].
    simpl. rewrite andb_true_r. reflexivity.
  - destruct cs as [| d cs']; [simpl in Hk; lia |].
    set (cs := d :: cs') in *.
    exists (compute_folds cs an d ++ map (SCG (nth (length an - 1) an d)) ts
              ++ rev (compute_folds cs an d)).
    split; [| split].
    + rewrite <- (@uncompute_exact cs an d Hk Ha).
      apply mcmt_basic_ok; auto. lia.
    + intros t Ht. rewrite (@exact_pool_target cs ts an d _ Hnd Hk Ha st t Ht).
      * rewrite Ha. replace (length cs - 1 - 1)%nat with (length cs - 2)%nat by lia.
        change (compute_folds cs an d) with (chain_prefix cs an d (length cs - 2)).
        rewrite (@chain_prefix_value cs an d (NoDup_outer _ _ _ Hnd) st
                   (length cs - 2) Hzero) by lia.
        replace (length cs - 2 + 2)%nat with (length cs) by lia.
        rewrite firstn_all. reflexivity.
      * intro Hin. apply (@NoDup_app_disjoint ts an _
                            (NoDup_app_remove_l _ _ Hnd) Hin).
        apply nth_In. lia.
    + intros q Hq. apply exact_pool_restores; auto.
Qed.

(** C3 (amended): for [k >= 2] controls and mode basic, a validated call
    fails exactly when the pool has fewer than [k - 1] ancillae, with the
    insufficient-ancilla assertion whenever [1 <= a < k - 1]; every pool
    with at least [k - 1] ancillae is accepted and synthesis returns. *)
Theorem C3_ancilla_threshold (q_controls q_ancillae q_targets : QArg)
        (cs ts an : list Qubit) (qc : Circuit) :
  arg_qubits q_controls = Some cs ->
  arg_qubits q_targets = Some ts ->
  pool_qubits q_ancillae = Some an ->
  validated cs ts an ->
  (2 <= length cs)%nat ->
  let r := mcmt q_controls q_ancillae primitive_gate q_targets "basic" qc in
  ((exists qc' e, r = (qc', Raised e)) <-> (length an < length cs - 1)%nat)
  /\ ((1 <= length an < length cs - 1)%nat ->
      exists qc', r = (qc', Raised (AssertionError (len an))))
  /\ ((length cs - 1 <= length an)%nat -> exists qc', r = (qc', Returned tt)).
Proof.
  intros Hc Ht Ha Hv Hk r. subst r. rewrite (@mcmt_args q_controls q_ancillae q_targets _ _ _ primitive_gate _ Hc Ha Ht).
  destruct cs as [| d cs']; [simpl in Hk; lia |].
  set (cs := d :: cs') in *.
  assert (Hok : (length cs - 1 <= length an)%nat ->
                exists qc', mcmt (PyList cs) (PyList an) primitive_gate
                                 (PyList ts) "basic" qc = (qc', Returned tt)).
  { intros Hle. eexists. apply (@mcmt_basic_ok cs an ts d qc Hv Hk Hle). }
  assert (Hshort : (1 <= length an < length cs - 1)%nat ->
                   exists qc', mcmt (PyList cs) (PyList an) primitive_gate
                                    (PyList ts) "basic" qc
                               = (qc', Raised (AssertionError (len an)))).
  { intros [H1 H2]. eexists. apply (@mcmt_basic_short cs an ts d qc Hv H1 H2). }
  split; [| split; assumption].
  split.
  - intros [qc' [e He]].
    destruct (le_lt_dec (length cs - 1) (length an)) as [Hle | Hlt]; [| exact Hlt].
    destruct (Hok Hle) as [qc'' Hr]. rewrite Hr in He. discriminate.
  - intros Hlt. destruct an as [| a0 an'].
    + exists qc, IndexError. apply mcmt_basic_index_error; auto. lia.
    + destruct Hshort as [qc' Hr]; [simpl in *; lia |]. eauto.
Qed.

(** C4 (amended): a call that fails with an invalid-qubit, duplicate-qubit,
    unsupported-mode, argument-type or index error -- any failure other than
    the insufficient-ancilla assertion -- leaves the output sequence exactly
    as it was before the call. *)
Theorem C4_failure_before_emission (q_controls q_ancillae q_targets : QArg)
        (mode : string) (qc qc' : Circuit) (e : PyError) :
  mcmt q_controls q_ancillae primitive_gate q_targets mode qc = (qc', Raised e) ->
  (forall n, e <> AssertionError n) ->
  qc' = qc.
Proof.
  intros Hr Hne.
  destruct (arg_qubits q_controls) as [cs |] eqn:Hc.
  2:{ destruct (@mcmt_bad_args q_controls q_ancillae q_targets primitive_gate
                  mode qc (or_introl Hc)) as [k [Hk _]].
      rewrite Hk in Hr. congruence. }
  destruct (arg_qubits q_targets) as [ts |] eqn:Ht.
  2:{ destruct (@mcmt_bad_args q_controls q_ancillae q_targets primitive_gate
                  mode qc (or_intror (or_introl Ht))) as [k [Hk _]].
      rewrite Hk in Hr. congruence. }
  destruct (pool_qubits q_ancillae) as [an |] eqn:Ha.
  2:{ destruct (@mcmt_bad_args q_controls q_ancillae q_targets primitive_gate
                  mode qc (or_intror (or_intror Ha))) as [k [Hk _]].
      rewrite Hk in Hr. congruence. }
  rewrite (@mcmt_args q_controls q_ancillae q_targets _ _ _ primitive_gate _ Hc Ha Ht) in Hr.
  destruct (mcmt_outcome cs an ts mode qc)
    as [H | [H | [_ [[c [_ H]] | [[_ [_ H]] | [[_ [_ [_ H]]]
                | [[_ [_ [_ [d H]]]] | [_ [_ [_ [d H]]]]]]]]]]];
    rewrite H in Hr; try congruence;
    injection Hr as _ He; exfalso; apply (Hne (len an)); congruence.
Qed.

(** C5 (amended): a successful call with one control appends exactly one
    primitive per target and nothing else; a successful call with [k >= 2]
    controls appends [k - 1] compute folds, then the [m] per-target
    primitives, then [k - 1] uncompute folds: [2 (k - 1)] folds in all. *)
Theorem C5_emitted_shape (q_controls q_ancillae q_targets : QArg)
        (cs ts an : list Qubit) (mode : string) (qc qc' : Circuit) :
  arg_qubits q_controls = Some cs ->
  arg_qubits q_targets = Some ts ->
  pool_qubits q_ancillae = Some an ->
  mcmt q_controls q_ancillae primitive_gate q_targets mode qc = (qc', Returned tt) ->
  (length cs = 1%nat ->
   exists c, cs = [c] /\ qc' = qc ++ map (SCG c) ts
             /\ length (map (SCG c) ts) = length ts)
  /\ ((2 <= length cs)%nat ->
      exists compute uncompute a,
        qc' = qc ++ compute ++ map (SCG a) ts ++ uncompute
        /\ forallb is_ccx compute = true /\ length compute = (length cs - 1)%nat
        /\ forallb is_ccx uncompute = true /\ length uncompute = (length cs - 1)%nat
        /\ length (map (SCG a) ts) = length ts
        /\ mode = "basic"%string).
Proof.
  intros Hc Ht Ha Hr. rewrite (@mcmt_args q_controls q_ancillae q_targets _ _ _ primitive_gate _ Hc Ha Ht) in Hr.
  destruct (mcmt_outcome cs an ts mode qc)
    as [H | [H | [_ [[c [Hcs H]] | [[_ [_ H]] | [[_ [_ [_ H]]]
                | [[_ [_ [_ [d H]]]] | [Hm [Hk [_ [d H]]]]]]]]]]];
    rewrite H in Hr; try discriminate; injection Hr as <-.
  - subst cs. split.
    + intros _. exists c. split; [reflexivity | split; [reflexivity |]].
      apply length_map.
    + simpl. lia.
  - split; [lia |]. intros _.
    exists (compute_folds cs an d), (uncompute_folds cs an d),
      (nth (length an - 1) an d).
    split; [reflexivity |].
    split; [apply compute_folds_ccx |].
    split; [apply compute_folds_length, Hk |].
    split; [apply uncompute_folds_ccx |].
    split; [apply uncompute_folds_length, Hk |].
    split; [apply length_map | exact Hm].
Qed.

(** C6 (amended): a validated call whose control count is not one and
    whose mode is not basic fails with the unsupported-mode error and
    leaves the output sequence unchanged. *)
Theorem C6_unsupported_mode (q_controls q_ancillae q_targets : QArg)
        (cs ts an : list Qubit) (mode : string) (qc : Circuit) :
  arg_qubits q_controls = Some cs ->
  arg_qubits q_targets = Some ts ->
  pool_qubits q_ancillae = Some an ->
  validated cs ts an ->
  length cs <> 1%nat ->
  mode <> "basic"%string ->
  mcmt q_controls q_ancillae primitive_gate q_targets mode qc
  = (qc, Raised (ValueError (UnrecognizedMode mode))).
Proof.
  intros Hc Ht Ha Hv Hk Hm. rewrite (@mcmt_args q_controls q_ancillae q_targets _ _ _ primitive_gate _ Hc Ha Ht).
  apply mcmt_bad_mode; auto. apply String.eqb_neq, Hm.
Qed.

(** C8 (amended): with [k >= 2] controls and at least [k - 1] ancillae the
    compute chain appends the fold of [controls[0]] and [controls[1]] into
    [ancillae[0]] and then, for [i = 2 .. k-1], the fold of [controls[i]]
    and [ancillae[i-2]] into [ancillae[i-1]]; with all ancillae initially
    zero, [ancillae[k-2]], the last one written, then holds the AND of all
    [k] controls, and no fold mentions an ancilla past that index. *)
Theorem C8_compute_chain (cs an : list Qubit) (d : Qubit) (st : State) (qc : Circuit) :
  (2 <= length cs)%nat ->
  (length cs - 1 <= length an)%nat ->
  NoDup (cs ++ an) ->
  (forall q, In q an -> st q = false) ->
  _ccx_v_chain_compute cs an qc = (qc ++ compute_folds cs an d, Returned tt)
  /\ compute_folds cs an d
     = CCX (nth 0 cs d) (nth 1 cs d) (nth 0 an d)
         :: map (fun i => CCX (nth (i + 2) cs d) (nth i an d) (nth (i + 1) an d))
                (seq 0 (length cs - 2))
  /\ run (compute_folds cs an d) st (nth (length cs - 2) an d) = forallb st cs
  /\ (forall j g, (length cs - 2 < j < length an)%nat ->
                  In g (compute_folds cs an d) ->
                  ~ In (nth j an d) (gate_qubits g)).
Proof.
  intros Hk Ha Hnd Hzero.
  split; [apply compute_ok; assumption |].
  split; [reflexivity |].
  split.
  - change (compute_folds cs an d) with (chain_prefix cs an d (length cs - 2)).
    rewrite (@chain_prefix_value cs an d Hnd st (length cs - 2) Hzero) by lia.
    replace (length cs - 2 + 2)%nat with (length cs) by lia.
    rewrite firstn_all. reflexivity.
  - intros j g Hj Hg Hin.
    change (compute_folds cs an d) with (chain_prefix cs an d (length cs - 2)) in Hg.
    apply chain_prefix_gate in Hg.
    destruct Hg as [-> | [i [Hi ->]]]; simpl in Hin;
      destruct Hin as [E | [E | [E | []]]].
    + apply (@control_not_ancilla cs an d Hnd 0 j); try lia. exact E.
    + apply (@control_not_ancilla cs an d Hnd 1 j); try lia. exact E.
    + apply (@ancilla_distinct cs an d Hnd 0 j); try lia. exact E.
    + apply (@control_not_ancilla cs an d Hnd (i + 2) j); try lia. exact E.
    + apply (@ancilla_distinct cs an d Hnd i j); try lia. exact E.
    + apply (@ancilla_distinct cs an d Hnd (i + 1) j); try lia. exact E.
Qed.

(** C9: a validated call with exactly one control appends, for each target
    in target order, one primitive conditioned on the sole control, and no
    ancilla of the supplied pool appears in any appended operation. *)
Theorem C9_single_control (q_controls q_ancillae q_targets : QArg)
        (c : Qubit) (ts an : list Qubit) (mode : string) (qc : Circuit) :
  arg_qubits q_controls = Some [c] ->
  arg_qubits q_targets = Some ts ->
  pool_qubits q_ancillae = Some an ->
  validated [c] ts an ->
  mcmt q_controls q_ancillae primitive_gate q_targets mode qc
  = (qc ++ map (SCG c) ts, Returned tt)
  /\ length (map (SCG c) ts) = length ts
  /\ (forall g a, In g (map (SCG c) ts) -> In a an -> ~ In a (gate_qubits g)).
Proof.
  intros Hc Ht Ha Hv. rewrite (@mcmt_args q_controls q_ancillae q_targets _ _ _ primitive_gate _ Hc Ha Ht).
  split; [apply mcmt_single, Hv |].
  split; [apply length_map |].
  intros g a Hg Han Hin. destruct Hv as [_ Hnd].
  apply in_map_iff in Hg. destruct Hg as [t [<- Hts]].
  simpl in Hin. destruct Hin as [<- | [<- | []]].
  - apply (@NoDup_app_disjoint [c] (ts ++ an) c Hnd); [left; reflexivity |].
    apply in_or_app. right. exact Han.
  - apply (@NoDup_app_disjoint ts an t (NoDup_app_remove_l _ _ Hnd) Hts Han).
Qed.

(** C10: [None] for the ancillae is treated exactly like an empty list, and
    an argument of the wrong kind (controls or targets that are neither a
    list nor a register, ancillae that are neither [None], a list nor a
    register) raises a ValueError whatever the qubits are, with nothing
    appended. *)
Theorem C10_argument_forms (q_controls q_ancillae q_targets : QArg)
        (f : Qubit -> Qubit -> Prog unit) (mode : string) (qc : Circuit) :
  mcmt q_controls PyNone f q_targets mode qc
  = mcmt q_controls (PyList []) f q_targets mode qc
  /\ (arg_qubits q_controls = None \/ arg_qubits q_targets = None
      \/ pool_qubits q_ancillae = None ->
      exists k, mcmt q_controls q_ancillae f q_targets mode qc
                = (qc, Raised (ValueError k))
                /\ (k = BadControls \/ k = BadTargets \/ k = BadAncilla)).
Proof.
  split; [reflexivity | apply mcmt_bad_args].
Qed.

(** ** Computations only append *)

Lemma appends_ret (A : Type) (a : A) : appends (ret a).
Proof. intros qc. simpl. rewrite app_nil_r. reflexivity. Qed.

Lemma appends_raise (A : Type) (e : PyError) : appends (@raise Circuit A e).
Proof. intros qc. simpl. rewrite app_nil_r. reflexivity. Qed.

Lemma appends_emit (g : Gate) : appends (emit g).
Proof. intros qc. reflexivity. Qed.

Lemma appends_bind (A B : Type) (m : Prog A) (f : A -> Prog B) :
  appends m -> (forall a, appends (f a)) -> appends (bind m f).
Proof.
  intros Hm Hf qc. unfold bind. rewrite (Hm qc).
  destruct (m []) as [e1 [a | e]]; simpl.
  - rewrite (Hf a (qc ++ e1)), (Hf a e1). simpl.
    rewrite app_assoc. reflexivity.
  - reflexivity.
Qed.

Lemma appends_for_each (A : Type) (l : list A) (body : A -> Prog unit) :
  (forall x, appends (body x)) -> appends (for_each l body).
Proof.
  intros Hbody. induction l as [| x l IH]; simpl.
  - apply appends_ret.
  - apply appends_bind; auto.
Qed.

Lemma appends_for_state (A V : Type) (l : list A) (body : A -> V -> Prog V) :
  (forall x v, appends (body x v)) -> forall v, appends (for_state l v body).
Proof.
  intros Hbody. induction l as [| x l IH]; intros v; simpl.
  - apply appends_ret.
  - apply appends_bind; auto.
Qed.

Lemma appends_py_index (A : Type) (l : list A) (i : Z) :
  appends (@py_index Circuit A l i).
Proof.
  unfold py_index. destruct (py_get l i); [apply appends_ret | apply appends_raise].
Qed.

Lemma appends_py_assert (cond : bool) (e : PyError) :
  appends (@py_assert Circuit cond e).
Proof.
  unfold py_assert. destruct cond; [apply appends_ret | apply appends_raise].
Qed.

Ltac appends_step :=
  match goal with
  | |- appends (bind _ _) => apply appends_bind; [| intros ?]
  | |- appends (ret _) => apply appends_ret
  | |- appends (raise _) => apply appends_raise
  | |- appends (for_each _ _) => apply appends_for_each; intros ?
  | |- appends (for_state _ _ _) => apply appends_for_state; intros ? ?
  | |- appends (py_index _ _) => apply appends_py_index
  | |- appends (py_assert _ _) => apply appends_py_assert
  | |- appends (ccx _ _ _) => apply appends_emit
  | |- appends (emit _) => apply appends_emit
  | |- appends (match ?x with _ => _ end) => destruct x
  end.

Lemma appends_check_qubit (q : Qubit) : appends (_check_qubit q).
Proof. unfold _check_qubit. repeat appends_step. Qed.

Lemma appends_check_dups (l : list Qubit) : appends (_check_dups l).
Proof. unfold _check_dups. repeat appends_step. Qed.

Lemma appends_compute (cs an : list Qubit) : appends (_ccx_v_chain_compute cs an).
Proof. unfold _ccx_v_chain_compute. cbv zeta. repeat appends_step. Qed.

Lemma appends_uncompute (cs an : list Qubit) : appends (_ccx_v_chain_uncompute cs an).
Proof. unfold _ccx_v_chain_uncompute. cbv zeta. repeat appends_step. Qed.

(** X1: whatever the arguments and however the call ends, [mcmt] only
    appends to the circuit and never reads it, provided the caller's
    primitive does the same: on a circuit [qc] the call leaves [qc] followed
    by what it appends to the empty circuit, with the same outcome. *)
Theorem X1_mcmt_appends (q_controls q_ancillae q_targets : QArg)
        (f : Qubit -> Qubit -> Prog unit) (mode : string) (qc : Circuit) :
  (forall c t, appends (f c t)) ->
  mcmt q_controls q_ancillae f q_targets mode qc
  = (qc ++ fst (mcmt q_controls q_ancillae f q_targets mode []),
     snd (mcmt q_controls q_ancillae f q_targets mode [])).
Proof.
  intros Hf. revert qc.
  change (appends (mcmt q_controls q_ancillae f q_targets mode)).
  unfold mcmt. cbv zeta.
  repeat first [appends_step | apply Hf | apply appends_compute
                | apply appends_uncompute | apply appends_check_qubit
                | apply appends_check_dups].
Qed.

(** ** Validation comes first *)

(** X2: if any qubit among controls, targets and ancillae is not known to
    the host circuit, the call fails with the invalid-qubit error and appends
    nothing, whatever the mode, the primitive, the number of controls, the
    size of the pool, and whether or not qubits are also duplicated. *)
Theorem X2_invalid_qubit_first (q_controls q_ancillae q_targets : QArg)
        (cs ts an : list Qubit) (f : Qubit -> Qubit -> Prog unit)
        (mode : string) (qc : Circuit) :
  arg_qubits q_controls = Some cs ->
  arg_qubits q_targets = Some ts ->
  pool_qubits q_ancillae = Some an ->
  forallb valid_qubit (cs ++ ts ++ an) = false ->
  mcmt q_controls q_ancillae f q_targets mode qc = (qc, Raised InvalidQubit).
Proof.
  intros Hc Ht Ha Hbad.
  rewrite (@mcmt_args q_controls q_ancillae q_targets _ _ _ f _ Hc Ha Ht).
  apply mcmt_invalid, Hbad.
Qed.

(** X3: if all qubits are known but one occurs twice among controls, targets
    and ancillae, the call fails with the duplicate-qubit error and appends
    nothing, also with a single control or an unsupported mode. *)
Theorem X3_duplicate_qubit_before_synthesis (q_controls q_ancillae q_targets : QArg)
        (cs ts an : list Qubit) (f : Qubit -> Qubit -> Prog unit)
        (mode : string) (qc : Circuit) :
  arg_qubits q_controls = Some cs ->
  arg_qubits q_targets = Some ts ->
  pool_qubits q_ancillae = Some an ->
  forallb valid_qubit (cs ++ ts ++ an) = true ->
  ~ NoDup (cs ++ ts ++ an) ->
  mcmt q_controls q_ancillae f q_targets mode qc = (qc, Raised DuplicateQubit).
Proof.
  intros Hc Ht Ha Hvalid Hdup.
  rewrite (@mcmt_args q_controls q_ancillae q_targets _ _ _ f _ Hc Ha Ht).
  apply mcmt_duplicate; assumption.
Qed.

(** ** When a call returns *)

(** X4: a call with well-formed arguments returns without an exception
    exactly when the qubits are valid and pairwise distinct and either there
    is a single control, or the mode is basic, there are [k >= 2] controls and
    the pool has at least [k - 1] ancillae. *)
Theorem X4_returns_iff (q_controls q_ancillae q_targets : QArg)
        (cs ts an : list Qubit) (mode : string) (qc : Circuit) :
  arg_qubits q_controls = Some cs ->
  arg_qubits q_targets = Some ts ->
  pool_qubits q_ancillae = Some an ->
  (exists qc', mcmt q_controls q_ancillae primitive_gate q_targets mode qc
               = (qc', Returned tt))
  <-> validated cs ts an
      /\ (length cs = 1%nat
          \/ (mode = "basic"%string /\ (2 <= length cs)%nat
              /\ (length cs - 1 <= length an)%nat)).
Proof.
  intros Hc Ht Ha.
  rewrite (@mcmt_args q_controls q_ancillae q_targets _ _ _ primitive_gate _ Hc Ha Ht).
  split.
  - intros [qc' Hr].
    destruct (mcmt_outcome cs an ts mode qc)
      as [H | [H | [Hv [[c [Hcs H]] | [[_ [_ H]] | [[_ [_ [_ H]]]
                  | [[_ [_ [_ [d H]]]] | [Hm [Hk [Hle [d H]]]]]]]]]]];
      rewrite H in Hr; try discriminate; (split; [exact Hv |]).
    + left. subst cs. reflexivity.
    + right. auto.
  - intros [Hv [Hk1 | [Hm [Hk Hle]]]].
    + destruct cs as [| c [| c' cs']]; try discriminate.
      eexists. apply mcmt_single, Hv.
    + subst mode. destruct cs as [| d cs']; [simpl in Hk; lia |].
      eexists. apply (@mcmt_basic_ok (d :: cs') an ts d qc Hv Hk Hle).
Qed.

(** X5: in basic mode a validated call with no control at all, or with two
    or more controls and an empty pool (also one given as [None]), fails with
    an index error -- not with the insufficient-ancilla assertion -- and
    appends nothing. *)
Theorem X5_missing_control_or_pool (q_controls q_ancillae q_targets : QArg)
        (cs ts an : list Qubit) (qc : Circuit) :
  arg_qubits q_controls = Some cs ->
  arg_qubits q_targets = Some ts ->
  pool_qubits q_ancillae = Some an ->
  validated cs ts an ->
  cs = [] \/ ((2 <= length cs)%nat /\ an = []) ->
  mcmt q_controls q_ancillae primitive_gate q_targets "basic" qc
  = (qc, Raised IndexError).
Proof.
  intros Hc Ht Ha Hv Hshape.
  rewrite (@mcmt_args q_controls q_ancillae q_targets _ _ _ primitive_gate _ Hc Ha Ht).
  apply mcmt_basic_index_error; [exact Hv | |].
  - destruct Hshape as [-> | [Hk _]]; simpl; lia.
  - destruct Hshape as [-> | [_ ->]]; [left; simpl; lia | right; reflexivity].
Qed.

(** ** The chain halves on their own *)





(** X8: with exactly [k - 1] ancillae, distinct from each other and from the
    controls, compute followed at once by uncompute appends a sequence and
    its mirror image, and running it returns every qubit to the value it
    had, whatever the controls and ancillae held at the start. *)
Theorem X8_compute_uncompute_round_trip (cs an : list Qubit) (d : Qubit)
        (qc : Circuit) :
  (2 <= length cs)%nat -> length an = (length cs - 1)%nat ->
  NoDup (cs ++ an) ->
  (_ccx_v_chain_compute cs an ;; _ccx_v_chain_uncompute cs an) qc
  = (qc ++ compute_folds cs an d ++ rev (compute_folds cs an d), Returned tt)
  /\ (forall (st : State) (q : Qubit),
         run (compute_folds cs an d ++ rev (compute_folds cs an d)) st q = st q).
Proof.
  intros Hk Ha Hnd. split.
  - unfold bind. rewrite (@compute_ok cs an d qc) by lia.
    rewrite (@uncompute_ok cs an d) by lia.
    rewrite (@uncompute_exact cs an d Hk Ha), <- app_assoc. reflexivity.
  - intros st q. apply run_rev_inverse. intros g Hg.
    apply (@chain_prefix_proper cs an d Hnd (length cs - 2)); [lia | lia | exact Hg].
Qed.

(** X9: with a single control, or with [k >= 2] controls and a pool of
    exactly [k - 1] ancillae that start at zero, a validated basic call
    returns, and running what it appended applies the target operation to
    each target exactly when all controls are true and leaves every other
    qubit -- controls and ancillae included -- at its initial value. *)
Theorem X9_exact_pool_correct (q_controls q_ancillae q_targets : QArg)
        (cs ts an : list Qubit) (st : State) (qc : Circuit) :
  arg_qubits q_controls = Some cs ->
  arg_qubits q_targets = Some ts ->
  pool_qubits q_ancillae = Some an ->
  validated cs ts an ->
  length cs = 1%nat \/ ((2 <= length cs)%nat /\ length an = (length cs - 1)%nat) ->
  (forall q, In q an -> st q = false) ->
  exists emitted,
    mcmt q_controls q_ancillae primitive_gate q_targets "basic" qc
    = (qc ++ emitted, Returned tt)
    /\ (forall t, In t ts ->
                  run emitted st t = if forallb st cs then U (st t) else st t)
    /\ (forall q, ~ In q ts -> run emitted st q = st q).
Proof.
  intros Hc Ht Ha Hv Hshape Hzero.
  rewrite (@mcmt_args q_controls q_ancillae q_targets _ _ _ primitive_gate _ Hc Ha Ht).
  apply mcmt_exact_pool_correct; assumption.
Qed.

Lemma chain_prefix_split (cs an : list Qubit) (d : Qubit) (i m : nat) :
  (i <= m)%nat ->
  chain_prefix cs an d m
  = chain_prefix cs an d i ++ map (fold_at cs an d 0) (seq i (m - i)).
Proof.
  intros Him. unfold chain_prefix.
  replace m with (i + (m - i))%nat at 1 by lia.
  rewrite seq_app, map_app. reflexivity.
Qed.

(** X10: after the compute chain on zeroed ancillae, every ancilla it wrote
    holds a running conjunction: [ancillae[i]] is the AND of the first
    [i + 2] controls, for each [i] up to [k - 2]. *)
Theorem X10_compute_running_conjunctions (cs an : list Qubit) (d : Qubit)
        (st : State) (i : nat) :
  (2 <= length cs)%nat -> (length cs - 1 <= length an)%nat ->
  NoDup (cs ++ an) ->
  (forall q, In q an -> st q = false) ->
  (i <= length cs - 2)%nat ->
  run (compute_folds cs an d) st (nth i an d) = forallb st (firstn (i + 2) cs).
Proof.
  intros Hk Ha Hnd Hzero Hi.
  change (compute_folds cs an d) with (chain_prefix cs an d (length cs - 2)).
  rewrite (@chain_prefix_split cs an d i (length cs - 2) Hi), run_app.
  rewrite run_frame.
  - apply chain_prefix_value; auto; lia.
  - intros g Hg E. apply in_map_iff in Hg. destruct Hg as [j [<- Hj]].
    apply in_seq in Hj. unfold fold_at in E. simpl in E.
    apply (@ancilla_distinct cs an d Hnd (j + 1) i); try lia. exact E.
Qed.

(** X11: the compute chain writes nothing but the first [k - 1] ancillae of
    the pool: any other qubit -- a control, a target, a later ancilla --
    keeps its value, whatever the initial state. *)
Theorem X11_compute_writes_first_ancillae (cs an : list Qubit) (d : Qubit)
        (st : State) (q : Qubit) :
  (2 <= length cs)%nat -> (length cs - 1 <= length an)%nat ->
  ~ In q (firstn (length cs - 1) an) ->
  run (compute_folds cs an d) st q = st q.
Proof.
  intros Hk Ha Hq. apply run_frame. intros g Hg E. apply Hq.
  change (compute_folds cs an d) with (chain_prefix cs an d (length cs - 2)) in Hg.
  apply chain_prefix_target in Hg. destruct Hg as [i [Hi Ei]].
  rewrite <- E, Ei.
  rewrite <- (firstn_skipn (length cs - 1) an) at 1.
  rewrite app_nth1 by (rewrite length_firstn; lia).
  apply nth_In. rewrite length_firstn. lia.
Qed.

(** X12: a validated basic call with [k >= 2] controls and [a >= k - 1]
    ancillae appends exactly: the compute folds, then for each target in
    order one primitive conditioned on [ancillae[a-1]], the last ancilla of
    the pool, then the uncompute folds. *)
Theorem X12_basic_emitted_sequence (q_controls q_ancillae q_targets : QArg)
        (cs ts an : list Qubit) (d : Qubit) (qc : Circuit) :
  arg_qubits q_controls = Some cs ->
  arg_qubits q_targets = Some ts ->
  pool_qubits q_ancillae = Some an ->
  validated cs ts an ->
  (2 <= length cs)%nat -> (length cs - 1 <= length an)%nat ->
  mcmt q_controls q_ancillae primitive_gate q_targets "basic" qc
  = (qc ++ compute_folds cs an d
        ++ map (SCG (nth (length an - 1) an d)) ts
        ++ uncompute_folds cs an d,
     Returned tt).
Proof.
  intros Hc Ht Ha Hv Hk Hle.
  rewrite (@mcmt_args q_controls q_ancillae q_targets _ _ _ primitive_gate _ Hc Ha Ht).
  apply mcmt_basic_ok; assumption.
Qed.

(** ** Uncompute outside its intended range *)







End Mcmt.

Arguments PyNone {Qubit}.
Arguments PyOther {Qubit}.

(** ** The claims on concrete circuits *)

Ltac concrete_validated :=
  split; [reflexivity | apply (proj1 (nodup_length_iff Nat.eq_dec _)); reflexivity].

(** C1: with two controls, both true, and a pool of two zeroed ancillae the
    call succeeds, but the primitive is conditioned on the untouched second
    ancilla, so the target is left as it was although the operation (here
    negation) would have changed it. *)
Theorem C1_oversized_pool_target_not_driven :
  let st := first_true 2 in
  let emitted := [CCX 0 1 2; SCG 3 4; CCX 0 1 3] in
  mcmt Nat.eq_dec all_valid (PyList [0; 1]) (PyList [2; 3])
       (@primitive_gate nat) (PyList [4]) "basic" []
  = (emitted, Returned tt)
  /\ forallb st [0; 1] = true
  /\ run Nat.eq_dec negb emitted st 4 = st 4
  /\ negb (st 4) <> st 4.
Proof.
  repeat split; try reflexivity. vm_compute. discriminate.
Qed.

(** C2: on the same call both ancillae start at zero and end at one: the
    compute fold writes the first ancilla, the uncompute fold the second. *)
Theorem C2_oversized_pool_ancillae_not_restored :
  let st := first_true 2 in
  let emitted := [CCX 0 1 2; SCG 3 4; CCX 0 1 3] in
  mcmt Nat.eq_dec all_valid (PyList [0; 1]) (PyList [2; 3])
       (@primitive_gate nat) (PyList [4]) "basic" []
  = (emitted, Returned tt)
  /\ st 2 = false /\ run Nat.eq_dec negb emitted st 2 = true
  /\ st 3 = false /\ run Nat.eq_dec negb emitted st 3 = true.
Proof.
  repeat split; reflexivity.
Qed.

(** C7: on the same call the compute chain writes ancilla 2 only, while the
    per-target primitive is conditioned on ancilla 3, the last of the pool. *)
Theorem C7_oversized_pool_primitive_control :
  _ccx_v_chain_compute [0; 1] [2; 3] [] = ([CCX 0 1 2], Returned tt)
  /\ map (@gate_target nat) [CCX 0 1 2] = [2]
  /\ mcmt Nat.eq_dec all_valid (PyList [0; 1]) (PyList [2; 3])
          (@primitive_gate nat) (PyList [4]) "basic" []
     = ([CCX 0 1 2; SCG 3 4; CCX 0 1 3], Returned tt)
  /\ map (@gate_control nat)
         (filter (fun g => negb (is_ccx g)) [CCX 0 1 2; SCG 3 4; CCX 0 1 3])
     = [3].
Proof.
  repeat split; reflexivity.
Qed.

(** Three controls and one ancilla: the pool has [k - 2] ancillae, is not
    smaller than [k - 2], and the call still fails on the assertion. *)
Lemma C3_counterexample :
  ~ (length [3] < length [0; 1; 2] - 2)%nat
  /\ mcmt Nat.eq_dec all_valid (PyList [0; 1; 2]) (PyList [3])
          (@primitive_gate nat) (PyList [4]) "basic" []
     = ([CCX 0 1 3], Raised (AssertionError 1)).
Proof.
  split; [simpl; lia | reflexivity].
Qed.

Lemma C3_witness :
  exists qc',
    mcmt Nat.eq_dec all_valid (PyList [0; 1; 2]) (PyList [3; 4])
         (@primitive_gate nat) (PyList [5]) "basic" []
    = (qc', Returned tt).
Proof.
  refine (proj2 (proj2 (@C3_ancilla_threshold nat Nat.eq_dec all_valid
                          (PyList [0; 1; 2]) (PyList [3; 4]) (PyList [5])
                          [0; 1; 2] [5] [3; 4] []
                          eq_refl eq_refl eq_refl _ _)) _).
  - concrete_validated.
  - simpl; lia.
  - simpl; lia.
Defined.

(** The specification's own scenario, four controls and one ancilla: the
    call fails on the assertion after the first fold has been appended. *)
Lemma C4_counterexample :
  exists qc',
    mcmt Nat.eq_dec all_valid (PyList [0; 1; 2; 3]) (PyList [4])
         (@primitive_gate nat) (PyList [5]) "basic" []
    = (qc', Raised (AssertionError 1))
    /\ qc' <> [].
Proof.
  exists [CCX 0 1 4]. split; [reflexivity | discriminate].
Qed.

Lemma C4_witness :
  mcmt Nat.eq_dec all_valid (PyList [0; 1]) (PyList [1])
       (@primitive_gate nat) (PyList [2]) "basic" [SCG 7 8]
  = ([SCG 7 8], Raised DuplicateQubit)
  /\ [SCG 7 8] = [SCG 7 8].
Proof.
  split; [reflexivity |].
  apply (@C4_failure_before_emission nat Nat.eq_dec all_valid
           (PyList [0; 1]) (PyList [1]) (PyList [2]) "basic"
           [SCG 7 8] [SCG 7 8] DuplicateQubit).
  - reflexivity.
  - intros n; discriminate.
Defined.

(** Two controls, one ancilla, one target: three operations, two of them
    folds, where [2 (k - 2)] would be none. *)
Lemma C5_counterexample :
  mcmt Nat.eq_dec all_valid (PyList [0; 1]) (PyList [2])
       (@primitive_gate nat) (PyList [3]) "basic" []
  = ([CCX 0 1 2; SCG 2 3; CCX 0 1 2], Returned tt)
  /\ length (filter (@is_ccx nat) [CCX 0 1 2; SCG 2 3; CCX 0 1 2])
     <> (2 * (length [0; 1] - 2))%nat.
Proof.
  split; [reflexivity | simpl; lia].
Qed.

Lemma C5_witness :
  exists compute uncompute a,
    [CCX 0 1 2; SCG 2 3; CCX 0 1 2] = [] ++ compute ++ map (SCG a) [3] ++ uncompute
    /\ forallb (@is_ccx nat) compute = true /\ length compute = 1%nat
    /\ forallb (@is_ccx nat) uncompute = true /\ length uncompute = 1%nat
    /\ length (map (SCG a) [3]) = 1%nat
    /\ "basic"%string = "basic"%string.
Proof.
  refine (proj2 (@C5_emitted_shape nat Nat.eq_dec all_valid
                   (PyList [0; 1]) (PyList [2]) (PyList [3])
                   [0; 1] [3] [2] "basic" [] [CCX 0 1 2; SCG 2 3; CCX 0 1 2]
                   eq_refl eq_refl eq_refl _) _).
  - reflexivity.
  - simpl; lia.
Defined.

(** One control and an unsupported mode: the call returns and has appended
    the primitive. *)
Lemma C6_counterexample :
  "other"%string <> "basic"%string
  /\ mcmt Nat.eq_dec all_valid (PyList [0]) (PyList [])
          (@primitive_gate nat) (PyList [1]) "other" []
     = ([SCG 0 1], Returned tt).
Proof.
  split; [discriminate | reflexivity].
Qed.

Lemma C6_witness :
  mcmt Nat.eq_dec all_valid (PyList [0; 1]) (PyList [2])
       (@primitive_gate nat) (PyList [3]) "other" []
  = ([], Raised (ValueError (UnrecognizedMode "other"))).
Proof.
  apply (@C6_unsupported_mode nat Nat.eq_dec all_valid
           (PyList [0; 1]) (PyList [2]) (PyList [3]) [0; 1] [3] [2] "other" []);
    try reflexivity.
  - concrete_validated.
  - simpl; lia.
  - discriminate.
Defined.

(** Three controls of which the third is false, two zeroed ancillae:
    [ancillae[k-3]] is the first ancilla and holds true, the AND of the first
    two controls, while the AND of all three is false; and the second
    ancilla, past index [k-3], is written by the second fold. *)
Lemma C8_counterexample :
  let st := first_true 2 in
  _ccx_v_chain_compute [0; 1; 2] [3; 4] [] = ([CCX 0 1 3; CCX 2 3 4], Returned tt)
  /\ run Nat.eq_dec negb [CCX 0 1 3; CCX 2 3 4] st (nth (3 - 3) [3; 4] 0) = true
  /\ forallb st [0; 1; 2] = false
  /\ map (@gate_target nat) [CCX 0 1 3; CCX 2 3 4] = [3; nth 1 [3; 4] 0].
Proof.
  repeat split; reflexivity.
Qed.

Lemma C8_witness :
  run Nat.eq_dec negb (compute_folds [0; 1; 2] [3; 4] 0) (first_true 3) 4
  = forallb (first_true 3) [0; 1; 2].
Proof.
  refine (proj1 (proj2 (proj2 (@C8_compute_chain nat Nat.eq_dec negb
                                 [0; 1; 2] [3; 4] 0 (first_true 3) []
                                 _ _ _ _)))).
  - simpl; lia.
  - simpl; lia.
  - apply (proj1 (nodup_length_iff Nat.eq_dec _)); reflexivity.
  - intros q Hq. simpl in Hq. destruct Hq as [<- | [<- | []]]; reflexivity.
Defined.

Lemma C9_witness :
  mcmt Nat.eq_dec all_valid (PyList [0]) (PyList [3])
       (@primitive_gate nat) (PyRegister [1; 2]) "basic" []
  = ([SCG 0 1; SCG 0 2], Returned tt).
Proof.
  refine (proj1 (@C9_single_control nat Nat.eq_dec all_valid
                   (PyList [0]) (PyList [3]) (PyRegister [1; 2])
                   0 [1; 2] [3] "basic" [] eq_refl eq_refl eq_refl _)).
  concrete_validated.
Defined.

Lemma C10_witness :
  exists k,
    mcmt Nat.eq_dec all_valid PyOther (PyList [0; 0])
         (@primitive_gate nat) (PyList [0]) "basic" []
    = ([], Raised (ValueError k))
    /\ (k = BadControls \/ k = BadTargets \/ k = BadAncilla).
Proof.
  refine (proj2 (@C10_argument_forms nat Nat.eq_dec all_valid
                   PyOther (PyList [0; 0]) (PyList [0])
                   (@primitive_gate nat) "basic" []) _).
  left. reflexivity.
Defined.

(** ** Further properties on concrete circuits *)

Lemma X1_witness :
  mcmt Nat.eq_dec all_valid (PyList [0; 1]) (PyList [2])
       (@primitive_gate nat) (PyList [3]) "basic" [SCG 7 8]
  = ([SCG 7 8; CCX 0 1 2; SCG 2 3; CCX 0 1 2], Returned tt).
Proof.
  refine (@X1_mcmt_appends nat Nat.eq_dec all_valid
            (PyList [0; 1]) (PyList [2]) (PyList [3])
            (@primitive_gate nat) "basic" [SCG 7 8] _).
  intros c t qc. reflexivity.
Defined.

Lemma X2_witness :
  mcmt Nat.eq_dec five_qubits (PyList [0; 1]) (PyList [1; 9])
       (@primitive_gate nat) (PyList [2]) "other" []
  = ([], Raised InvalidQubit).
Proof.
  apply (@X2_invalid_qubit_first nat Nat.eq_dec five_qubits
           (PyList [0; 1]) (PyList [1; 9]) (PyList [2])
           [0; 1] [2] [1; 9] (@primitive_gate nat) "other" []);
    reflexivity.
Defined.

Lemma X3_witness :
  mcmt Nat.eq_dec five_qubits (PyList [0]) (PyList [4])
       (@primitive_gate nat) (PyList [1; 4]) "other" []
  = ([], Raised DuplicateQubit).
Proof.
  apply (@X3_duplicate_qubit_before_synthesis nat Nat.eq_dec five_qubits
           (PyList [0]) (PyList [4]) (PyList [1; 4])
           [0] [1; 4] [4] (@primitive_gate nat) "other" []);
    try reflexivity.
  intro H. apply (proj2 (nodup_length_iff Nat.eq_dec _)) in H. discriminate H.
Defined.

Lemma X4_witness :
  exists qc',
    mcmt Nat.eq_dec all_valid (PyList [0; 1; 2]) (PyRegister [3; 4])
         (@primitive_gate nat) (PyList [5]) "basic" []
    = (qc', Returned tt).
Proof.
  apply (proj2 (@X4_returns_iff nat Nat.eq_dec all_valid
                  (PyList [0; 1; 2]) (PyRegister [3; 4]) (PyList [5])
                  [0; 1; 2] [5] [3; 4] "basic" [] eq_refl eq_refl eq_refl)).
  split; [concrete_validated |].
  right. split; [reflexivity | simpl; lia].
Defined.

Lemma X5_witness :
  mcmt Nat.eq_dec all_valid (PyList [0; 1]) PyNone
       (@primitive_gate nat) (PyList [2]) "basic" []
  = ([], Raised IndexError).
Proof.
  apply (@X5_missing_control_or_pool nat Nat.eq_dec all_valid
           (PyList [0; 1]) PyNone (PyList [2]) [0; 1] [2] [] []);
    try reflexivity.
  - concrete_validated.
  - right. split; [simpl; lia | reflexivity].
Defined.



Lemma X8_witness :
  run Nat.eq_dec negb
      ([CCX 0 1 3; CCX 2 3 4] ++ rev [CCX 0 1 3; CCX 2 3 4]) (first_true 4) 3
  = first_true 4 3.
Proof.
  refine (proj2 (@X8_compute_uncompute_round_trip nat Nat.eq_dec negb
                   [0; 1; 2] [3; 4] 0 [] _ _ _) (first_true 4) 3).
  - simpl; lia.
  - reflexivity.
  - apply (proj1 (nodup_length_iff Nat.eq_dec _)); reflexivity.
Defined.

Lemma X9_witness :
  exists emitted,
    mcmt Nat.eq_dec all_valid (PyList [0; 1; 2]) (PyList [3; 4])
         (@primitive_gate nat) (PyList [5; 6]) "basic" []
    = ([] ++ emitted, Returned tt)
    /\ (forall t, In t [5; 6] ->
                  run Nat.eq_dec negb emitted (first_true 3) t
                  = if forallb (first_true 3) [0; 1; 2]
                    then negb (first_true 3 t) else first_true 3 t)
    /\ (forall q, ~ In q [5; 6] ->
                  run Nat.eq_dec negb emitted (first_true 3) q = first_true 3 q).
Proof.
  apply (@X9_exact_pool_correct nat Nat.eq_dec all_valid negb
           (PyList [0; 1; 2]) (PyList [3; 4]) (PyList [5; 6])
           [0; 1; 2] [5; 6] [3; 4] (first_true 3) []);
    try reflexivity.
  - concrete_validated.
  - right. split; [simpl; lia | reflexivity].
  - intros q Hq. simpl in Hq. destruct Hq as [<- | [<- | []]]; reflexivity.
Defined.

Lemma X10_witness :
  run Nat.eq_dec negb (compute_folds [0; 1; 2; 3] [4; 5; 6] 0) (first_true 4) 5
  = forallb (first_true 4) (firstn (1 + 2) [0; 1; 2; 3]).
Proof.
  refine (@X10_compute_running_conjunctions nat Nat.eq_dec negb
            [0; 1; 2; 3] [4; 5; 6] 0 (first_true 4) 1 _ _ _ _ _).
  - simpl; lia.
  - simpl; lia.
  - apply (proj1 (nodup_length_iff Nat.eq_dec _)); reflexivity.
  - intros q Hq. simpl in Hq. destruct Hq as [<- | [<- | [<- | []]]]; reflexivity.
  - simpl; lia.
Defined.

Lemma X11_witness :
  run Nat.eq_dec negb (compute_folds [0; 1; 2] [3; 4; 5] 0) (first_true 3) 5
  = first_true 3 5.
Proof.
  refine (@X11_compute_writes_first_ancillae nat Nat.eq_dec negb
            [0; 1; 2] [3; 4; 5] 0 (first_true 3) 5 _ _ _).
  - simpl; lia.
  - simpl; lia.
  - simpl. intros [H | [H | []]]; discriminate H.
Defined.

Lemma X12_witness :
  mcmt Nat.eq_dec all_valid (PyList [0; 1; 2]) (PyList [3; 4; 5])
       (@primitive_gate nat) (PyList [6; 7]) "basic" []
  = ([CCX 0 1 3; CCX 2 3 4; SCG 5 6; SCG 5 7; CCX 2 4 5; CCX 0 1 4], Returned tt).
Proof.
  refine (@X12_basic_emitted_sequence nat Nat.eq_dec all_valid
            (PyList [0; 1; 2]) (PyList [3; 4; 5]) (PyList [6; 7])
            [0; 1; 2] [6; 7] [3; 4; 5] 0 [] eq_refl eq_refl eq_refl _ _ _).
  - concrete_validated.
  - simpl; lia.
  - simpl; lia.
Defined.

